(** * The spin-box progression: a shallow embedding

    The repository is a tutorial that builds one widget, a numeric spin box,
    four times over:

    - example 1: a hand-rolled custom element;
    - example 3: the same element on top of [ShadowTemplateMixin];
    - example 4: the same element on top of [ReactiveMixin] and
      [ShadowTemplateMixin];
    - example 12: [CustomSpinBox], a themed subclass of a reactive spin box.

    Every class is embedded as a record of its fields together with one
    function per method; a method that can fail returns a [completion].
    The symbols of [internal.js] key the methods and properties the mixins
    and the widgets share ([render], [state], [setState], [firstRender],
    [ids], ...); they appear here as the names of those functions and fields.
    The host environment (the part of the language and of the document
    object model the classes call into) is embedded first. *)

From Stdlib Require Import ZArith NArith Ascii String List Lia.
From stdpp Require Import base decidable option list strings gmap.

Set Warnings "-clear-no-such-hyp".

Local Open Scope string_scope.
Local Open Scope Z_scope.

(** ** Completions

    A method either returns, or throws after having run part of its body, or
    leaves what the embedding represents (a number that is not an exact
    integer, a lifecycle step left open). A thrown completion carries the
    object as the statements before the throw left it: the host reports the
    exception and carries on with that object. *)

Inductive completion (A : Type) : Type :=
  | Normal (a : A)
  | Throw (a : A)
  | Unmodelled.

Arguments Normal {A} a.
Arguments Throw {A} a.
Arguments Unmodelled {A}.

Definition andThen {A : Type} (c : completion A) (k : A -> completion A)
  : completion A :=
  match c with
  | Normal a => k a
  | Throw a => Throw a
  | Unmodelled => Unmodelled
  end.

(** [withNumber o k]: continue with the number [o] when the embedding
    represents it. *)
Definition withNumber {N A : Type} (o : option N) (k : N -> completion A)
  : completion A :=
  match o with
  | Some n => k n
  | None => Unmodelled
  end.

(** The object a completion leaves behind, when it leaves one. *)
Definition outcome {A : Type} (c : completion A) : option A :=
  match c with
  | Normal a | Throw a => Some a
  | Unmodelled => None
  end.

(** ** The language: values, numbers and their conversions *)

Module JS.

Definition maxExact : Z := 2 ^ 53.

(** The fractions [m / 2^e] that are represented: [m] is odd, the digits of
    the expansion, which are those of [|m| * 5^e], are at most 15, and [e]
    is at most 19. *)
Definition exactFrac (m : Z) (e : positive) : bool :=
  Z.odd m && (Z.abs m * 5 ^ Z.pos e <? 10 ^ 15) && (Z.pos e <=? 19).

(** Numbers are double-precision values:
    - [Int z], the integer [z], in the contiguous range [-2^53 .. 2^53] of
      the integers a double holds exactly;
    - [Frac m e _], the fraction [m / 2^e] with [m] odd. Every finite
      double that is not an integer is such a fraction. Represented are the
      ones whose decimal expansion has at most 15 significant digits and
      whose magnitude is at least [2^-19], and a fraction carries the
      evidence that it is one of them: two decimals of at most 15
      significant digits never round to the same double, so for these the
      shortest decimal text that reads back as the number, which is what
      the conversion to a string yields, is the exact expansion, and it is
      written without an exponent;
    - [NaN].
    Negative zero is identified with zero: no operation used by the widgets
    tells them apart. Infinities and the other magnitudes are not
    represented; an operation whose result would be one of them yields
    [None]. *)
Inductive number : Type :=
  | Int (z : Z)
  | Frac (m : Z) (e : positive) (exact : Is_true (exactFrac m e))
  | NaN.

(** Values: [undefined], [null], numbers, strings, and object references.
    An object reference is identified with the text its string conversion
    yields. Strings are sequences of code units below 256. *)
Inductive value : Type :=
  | VUndef
  | VNull
  | VNum (n : number)
  | VStr (s : string)
  | VObj (text : string).

#[global] Instance number_eq_dec : EqDecision number.
Proof.
  intros [z|m e H|] [z'|m' e' H'|]; try (right; discriminate).
  - destruct (decide (z = z')) as [->|]; [by left|right; congruence].
  - destruct (decide (m = m')) as [->|]; [|right; congruence].
    destruct (decide (e = e')) as [->|]; [|right; congruence].
    left. f_equal. apply proof_irrel.
  - by left.
Defined.

#[global] Instance value_eq_dec : EqDecision value.
Proof. solve_decision. Defined.

(** The conversion of a mathematical integer to a number value. *)
Definition toDouble (n : number) : option number :=
  match n with
  | Int z => if Z.abs z <=? maxExact then Some (Int z) else None
  | _ => Some n
  end.

(** The number value of the fraction [m / 2^e], when it is represented. *)
Definition fraction (m : Z) (e : positive) : option number :=
  match decide (Is_true (exactFrac m e)) with
  | left exact => Some (Frac m e exact)
  | right _ => None
  end.

(** *** Characters *)

Definition code (c : ascii) : N := N_of_ascii c.

(** White space and line terminators: TAB, LF, VT, FF, CR, SP, NBSP. *)
Definition isWhiteSpace (c : ascii) : bool :=
  let n := code c in
  ((9 <=? n) && (n <=? 13) || (n =? 32) || (n =? 160))%N.

Definition decimalDigit (c : ascii) : option N :=
  let n := code c in
  if ((48 <=? n) && (n <=? 57))%N then Some (n - 48)%N else None.

Definition hexDigit (c : ascii) : option N :=
  let n := code c in
  if ((48 <=? n) && (n <=? 57))%N then Some (n - 48)%N
  else if ((97 <=? n) && (n <=? 102))%N then Some (n - 87)%N
  else if ((65 <=? n) && (n <=? 70))%N then Some (n - 55)%N
  else None.

Fixpoint trimStart (s : string) : string :=
  match s with
  | String c r => if isWhiteSpace c then trimStart r else s
  | EmptyString => EmptyString
  end.

Fixpoint trimEnd (s : string) : string :=
  match s with
  | EmptyString => EmptyString
  | String c r =>
      match trimEnd r with
      | EmptyString => if isWhiteSpace c then EmptyString else String c EmptyString
      | r' => String c r'
      end
  end.

(** *** parseInt, called with one argument *)

(** The value of the longest prefix of digits, most significant first. *)
Fixpoint scanDigits (digit : ascii -> option N) (radix : N) (s : string)
  (acc : N) : N :=
  match s with
  | String c r =>
      match digit c with
      | Some d => scanDigits digit radix r (acc * radix + d)%N
      | None => acc
      end
  | EmptyString => acc
  end.

Definition startsWithDigit (digit : ascii -> option N) (s : string) : bool :=
  match s with
  | String c _ => bool_decide (is_Some (digit c))
  | EmptyString => false
  end.

Definition stripSign (s : string) : bool * string :=
  match s with
  | String "-" r => (true, r)
  | String "+" r => (false, r)
  | _ => (false, s)
  end.

Definition stripHexPrefix (s : string) : option string :=
  match s with
  | String "0" (String "x" r) => Some r
  | String "0" (String "X" r) => Some r
  | _ => None
  end.

(** The mathematical integer [parseInt] reads, before it is converted to a
    number value: leading white space is dropped, then a sign, then a
    [0x] prefix selects radix 16, and the longest prefix of digits is
    read; without a digit the result is NaN. *)
Definition parseIntMath (s : string) : number :=
  let '(negative, t) := stripSign (trimStart s) in
  let '(digit, radix, body) :=
    match stripHexPrefix t with
    | Some r => (hexDigit, 16%N, r)
    | None => (decimalDigit, 10%N, t)
    end in
  if startsWithDigit digit body then
    let n := Z.of_N (scanDigits digit radix body 0) in
    Int (if negative then - n else n)
  else NaN.

(** *** Number to string *)

Definition digitChar (d : N) : ascii := ascii_of_N (48 + d).

Fixpoint printDigits (fuel : nat) (n : N) (acc : string) : string :=
  match fuel with
  | O => acc
  | S fuel' =>
      let acc' := String (digitChar (n mod 10)) acc in
      if (n <? 10)%N then acc' else printDigits fuel' (n / 10) acc'
  end.

Definition printN (n : N) : string :=
  printDigits (S (N.to_nat (N.log2 n))) n EmptyString.

(** The last [width] digits of [n], most significant first. *)
Fixpoint printFixed (width : nat) (n : N) (acc : string) : string :=
  match width with
  | O => acc
  | S width' =>
      printFixed width' (n / 10) (String (digitChar (n mod 10)) acc)
  end.

(** The expansion of [a / 2^e]: the integer part, a point, and the [e]
    digits of the fraction, which are those of [(a mod 2^e) * 5^e]. *)
Definition printFrac (a : N) (e : positive) : string :=
  let scale := (2 ^ N.pos e)%N in
  String.append (printN (a / scale))
    (String "."
       (printFixed (Pos.to_nat e) ((a mod scale) * 5 ^ N.pos e) EmptyString)).

Definition numberToString (n : number) : string :=
  match n with
  | Int z => if z <? 0 then String "-" (printN (Z.abs_N z)) else printN (Z.abs_N z)
  | Frac m e _ =>
      if m <? 0 then String "-" (printFrac (Z.abs_N m) e)
      else printFrac (Z.abs_N m) e
  | NaN => "NaN"
  end.

Definition ToString (v : value) : string :=
  match v with
  | VUndef => "undefined"
  | VNull => "null"
  | VNum n => numberToString n
  | VStr s => s
  | VObj text => text
  end.

(** *** String to number *)

Fixpoint allDigits (s : string) : bool :=
  match s with
  | String c r => bool_decide (is_Some (decimalDigit c)) && allDigits r
  | EmptyString => true
  end.

(** [Some n] when the text, trimmed, is empty (zero), a signed run of
    decimal digits (that integer), or cannot open a numeric literal (NaN).
    Any other text, a fraction or an exponent among them, yields [None]. *)
Definition stringToNumber (s : string) : option number :=
  match trimEnd (trimStart s) with
  | EmptyString => Some (Int 0)
  | t =>
      let '(negative, u) := stripSign t in
      match u with
      | EmptyString => Some NaN
      | String c _ =>
          if allDigits u then
            let n := Z.of_N (scanDigits decimalDigit 10 u 0) in
            toDouble (Int (if negative then - n else n))
          else if bool_decide (is_Some (decimalDigit c)) then None
          else if bool_decide (c = "."%char) || bool_decide (c = "I"%char) then None
          else Some NaN
      end
  end.

Definition ToNumber (v : value) : option number :=
  match v with
  | VUndef => Some NaN
  | VNull => Some (Int 0)
  | VNum n => Some n
  | VStr s => stringToNumber s
  | VObj text => stringToNumber text
  end.

Definition parseInt (v : value) : option number :=
  toDouble (parseIntMath (ToString v)).

(** [n + k] for an integer [k]; NaN is absorbing. *)
Definition add (n : number) (k : Z) : option number :=
  match n with
  | Int z => toDouble (Int (z + k))
  | Frac m e _ => fraction (m + k * 2 ^ Z.pos e) e
  | NaN => Some NaN
  end.

(** [n < 0]; a comparison with NaN is false. *)
Definition ltZero (n : number) : bool :=
  match n with
  | Int z => z <? 0
  | Frac m _ _ => m <? 0
  | NaN => false
  end.


End JS.

(** ** The host: shadow trees, listeners and events *)

Module DOM.

(** The three elements of [spinBoxTemplate] that carry an id. *)
Inductive elementId : Type := input | upButton | downButton.

Inductive eventType : Type := inputEvent | mousedownEvent.

(** The three arrow functions the widgets pass to [addEventListener]. *)
Inductive closure : Type := SetFromInput | Decrement | Increment.

Record registration : Type := {
  target : elementId;
  type : eventType;
  callback : closure
}.

#[global] Instance elementId_eq_dec : EqDecision elementId.
Proof. solve_decision. Defined.
#[global] Instance eventType_eq_dec : EqDecision eventType.
Proof. solve_decision. Defined.
#[global] Instance closure_eq_dec : EqDecision closure.
Proof. solve_decision. Defined.
#[global] Instance registration_eq_dec : EqDecision registration.
Proof. solve_decision. Defined.

(** A shadow root populated from the template: the text of the input
    field and the listeners registered on its elements, oldest first. *)
Record ShadowRoot : Type := {
  inputValue : string;
  listeners : list registration
}.

(** An element as the classes see it. [imports] counts the clones taken of
    the template and [writes] the assignments made to the field's [value];
    both are ghost counters, read by no method. *)
Record Element : Type := {
  shadowRoot : option ShadowRoot;
  borderColor : string;
  backgroundColor : string;
  imports : nat;
  writes : nat
}.

Definition createElement : Element :=
  {| shadowRoot := None; borderColor := ""; backgroundColor := "";
     imports := 0; writes := 0 |}.

(** A deep clone of the template's content: an empty field, no listener. *)
Definition importNode : ShadowRoot :=
  {| inputValue := ""; listeners := [] |}.

(** [attachShadow], [importNode] and [appendChild] in a row. *)
Definition attachTemplate (e : Element) : Element :=
  {| shadowRoot := Some importNode;
     borderColor := borderColor e; backgroundColor := backgroundColor e;
     imports := S (imports e); writes := writes e |}.

Definition addEventListener (t : elementId) (ty : eventType) (f : closure)
  (root : ShadowRoot) : ShadowRoot :=
  {| inputValue := inputValue root;
     listeners := listeners root ++ [{| target := t; type := ty; callback := f |}] |}.

(** The value sanitization of a text field drops line breaks. *)
Fixpoint stripNewlines (s : string) : string :=
  match s with
  | String c r =>
      if bool_decide (c = "010"%char) || bool_decide (c = "013"%char)
      then stripNewlines r
      else String c (stripNewlines r)
  | EmptyString => EmptyString
  end.

(** The text a field holds after [input.value = v]: the value converted to
    a string, with the line breaks dropped. The setter of the field's
    [value] takes [null] for the empty string, not for the text "null". *)
Definition fieldText (v : JS.value) : string :=
  match v with
  | JS.VNull => ""
  | _ => stripNewlines (JS.ToString v)
  end.

(** [input.value = v]. *)
Definition setInputValue (v : JS.value) (root : ShadowRoot) : ShadowRoot :=
  {| inputValue := fieldText v; listeners := listeners root |}.

(** The user replaces the text of the field. *)
Definition typeText (text : string) (root : ShadowRoot) : ShadowRoot :=
  {| inputValue := stripNewlines text; listeners := listeners root |}.

Definition withShadowRoot (root : ShadowRoot) (e : Element) : Element :=
  {| shadowRoot := Some root;
     borderColor := borderColor e; backgroundColor := backgroundColor e;
     imports := imports e; writes := writes e |}.

Definition countWrite (e : Element) : Element :=
  {| shadowRoot := shadowRoot e;
     borderColor := borderColor e; backgroundColor := backgroundColor e;
     imports := imports e; writes := S (writes e) |}.

Definition setStyle (border background : string) (e : Element) : Element :=
  {| shadowRoot := shadowRoot e;
     borderColor := border; backgroundColor := background;
     imports := imports e; writes := writes e |}.

(** The text the field shows, when there is a field. *)
Definition shownText (e : Element) : option string :=
  inputValue <$> shadowRoot e.

(** The callbacks registered for an event on a target, oldest first. *)
Definition listenersFor (t : elementId) (ty : eventType) (root : ShadowRoot)
  : list closure :=
  callback <$>
    filter (fun r => target r = t /\ type r = ty) (listeners root).

(** Dispatch: every callback runs, in order; an exception thrown by one of
    them is reported and the next one still runs. *)
Fixpoint runListeners {A : Type} (invoke : closure -> A -> completion A)
  (fs : list closure) (a : A) : completion A :=
  match fs with
  | [] => Normal a
  | f :: fs' =>
      match invoke f a with
      | Normal a' => runListeners invoke fs' a'
      | Throw a' =>
          match runListeners invoke fs' a' with
          | Normal a'' => Throw a''
          | c => c
          end
      | Unmodelled => Unmodelled
      end
  end.

(** What the host and the page can do to an element. *)
Inductive event : Type :=
  | Connected
  | Disconnected
  | AttributeSet (name : string) (newValue : option string)
  | PropertySet (v : JS.value)
  | UserEdit (text : string)
  | MouseDown (t : elementId)
  | EndOfTurn.

#[global] Instance event_eq_dec : EqDecision event.
Proof. solve_decision. Defined.

(** A page runs its events one after the other; an exception ends the
    event that raised it, not the page. *)
Fixpoint run {A : Type} (step : event -> A -> completion A)
  (es : list event) (a : A) : option A :=
  match es with
  | [] => Some a
  | e :: es' =>
      match outcome (step e a) with
      | Some a' => run step es' a'
      | None => None
      end
  end.

(** The listeners of a spin box whose event handlers were wired up
    once. *)
Definition wired : list registration :=
  [ {| target := input; type := inputEvent; callback := SetFromInput |};
    {| target := downButton; type := mousedownEvent; callback := Decrement |};
    {| target := upButton; type := mousedownEvent; callback := Increment |} ].

(** What holds of an element between two events: without a shadow root the
    template was never cloned; with one, it was cloned once and the handlers
    were wired once. *)
Definition wiredOnce (e : Element) : Prop :=
  match shadowRoot e with
  | None => imports e = 0%nat
  | Some root => imports e = 1%nat /\ listeners root = wired
  end.

(** The field, if there is one, shows the value. *)
Definition shows (v : JS.value) (e : Element) : Prop :=
  forall root,
    shadowRoot e = Some root ->
    inputValue root = fieldText v.

(** The text of an attribute as [parseInt] receives it; a removed
    attribute is reported as [null]. *)
Definition attributeText (newValue : option string) : JS.value :=
  match newValue with
  | Some s => JS.VStr s
  | None => JS.VNull
  end.

End DOM.

(** ** Example 1: the hand-rolled element

    [class SpinBox extends HTMLElement] of the first page. *)

Module Example01.
Import DOM.

Record SpinBox : Type := {
  _value : JS.value;
  element : Element
}.

Definition constructor : SpinBox :=
  {| _value := JS.VNum (JS.Int 0); element := createElement |}.

Definition observedAttributes : list string := ["value"].

(** [this.shadowRoot.getElementById('input').value = this._value]: a
    [TypeError] when [this.shadowRoot] is [null]. *)
Definition renderValue (this : SpinBox) : completion SpinBox :=
  match shadowRoot (element this) with
  | None => Throw this
  | Some root =>
      Normal {| _value := _value this;
                element := countWrite
                  (withShadowRoot (setInputValue (_value this) root)
                     (element this)) |}
  end.

Definition get_value (this : SpinBox) : JS.value := _value this.

Definition set_value (value : JS.value) (this : SpinBox)
  : completion SpinBox :=
  renderValue {| _value := value; element := element this |}.

(** The callback ignores its [oldValue] argument, left out here. *)
Definition attributeChangedCallback (attributeName : string)
  (newValue : option string) (this : SpinBox) : completion SpinBox :=
  if bool_decide (attributeName = "value") then
    withNumber (JS.parseInt (attributeText newValue))
      (fun n => set_value (JS.VNum n) this)
  else Normal this.

Definition connectedCallback (this : SpinBox) : completion SpinBox :=
  let this :=
    if bool_decide (shadowRoot (element this) = None) then
      (* Populate shadow root from template. *)
      let root := importNode in
      (* Wire up event handlers. *)
      let root := addEventListener input inputEvent SetFromInput root in
      let root := addEventListener downButton mousedownEvent Decrement root in
      let root := addEventListener upButton mousedownEvent Increment root in
      {| _value := _value this;
         element := withShadowRoot root (attachTemplate (element this)) |}
    else this in
  (* Render initial value. *)
  renderValue this.

(** [this.value--] and [this.value++]: the getter's result is converted to
    a number and the setter receives that number minus or plus one. *)
Definition stepValue (k : Z) (this : SpinBox) : completion SpinBox :=
  withNumber (JS.ToNumber (get_value this)) (fun old =>
  withNumber (JS.add old k) (fun new =>
  set_value (JS.VNum new) this)).

Definition invoke (f : closure) (this : SpinBox) : completion SpinBox :=
  match f with
  | SetFromInput =>
      match shadowRoot (element this) with
      | Some root => set_value (JS.VStr (inputValue root)) this
      | None => Throw this
      end
  | Decrement => stepValue (-1) this
  | Increment => stepValue 1 this
  end.

Definition dispatch (t : elementId) (ty : eventType) (this : SpinBox)
  : completion SpinBox :=
  match shadowRoot (element this) with
  | Some root => runListeners invoke (listenersFor t ty root) this
  | None => Normal this
  end.

Definition step (e : event) (this : SpinBox) : completion SpinBox :=
  match e with
  | Connected => connectedCallback this
  | Disconnected => Normal this
  | AttributeSet name newValue =>
      if bool_decide (name ∈ observedAttributes)
      then attributeChangedCallback name newValue this
      else Normal this
  | PropertySet v => set_value v this
  | UserEdit text =>
      match shadowRoot (element this) with
      | Some root =>
          dispatch input inputEvent
            {| _value := _value this;
               element := withShadowRoot (typeText text root) (element this) |}
      | None => Normal this
      end
  | MouseDown t => dispatch t mousedownEvent this
  | EndOfTurn => Normal this
  end.

(** Between two events the handlers are wired at most once and the field
    shows the value. *)
Definition consistent (this : SpinBox) : Prop :=
  wiredOnce (element this) /\ shows (_value this) (element this).

(** Two states of an element, both with a shadow root or both without. *)
Definition sameRoot (this this' : SpinBox) : Prop :=
  is_Some (shadowRoot (element this'))
  <-> is_Some (shadowRoot (element this)).

End Example01.

(** ** ShadowTemplateMixin *)

Module ShadowTemplateMixin.
Import DOM.

(** Modelled from the spec: [lib/core/ShadowTemplateMixin.js] is not among
    the sources. Section 4.1: on first activation the provider clones the
    fragment into a newly created root attached to the instance; on a later
    activation it detects that the instance already has a root and skips
    the creation. The widgets' template getter always returns the
    fragment, so the "no template" failure does not arise. *)
Definition render (e : Element) : Element :=
  match shadowRoot e with
  | Some _ => e
  | None => attachTemplate e
  end.

(** Modelled from the spec: the name-to-node lookup scoped to the root
    (section 4.1), here the access [this[ids].x] followed by an update of
    the node; without a root there is no node to update. *)
Definition ids (f : ShadowRoot -> ShadowRoot) (e : Element) : Element :=
  match shadowRoot e with
  | Some root => withShadowRoot (f root) e
  | None => e
  end.

End ShadowTemplateMixin.

(** ** Example 3: the element on top of ShadowTemplateMixin *)

Module Example03.
Import DOM.

Record SpinBox : Type := {
  _value : JS.value;
  element : Element
}.

Definition constructor : SpinBox :=
  {| _value := JS.VNum (JS.Int 0); element := createElement |}.

Definition observedAttributes : list string := ["value"].

(** The three [addEventListener] calls of [[render]]. *)
Definition wire (e : Element) : Element :=
  let e := ShadowTemplateMixin.ids
             (addEventListener input inputEvent SetFromInput) e in
  let e := ShadowTemplateMixin.ids
             (addEventListener downButton mousedownEvent Decrement) e in
  ShadowTemplateMixin.ids
    (addEventListener upButton mousedownEvent Increment) e.

Definition render (this : SpinBox) : SpinBox :=
  let firstRender := bool_decide (shadowRoot (element this) = None) in
  (* Populates shadow root from template. *)
  let e := ShadowTemplateMixin.render (element this) in
  (* Wire up event handlers. *)
  let e := if firstRender then wire e else e in
  (* Render value state to input. *)
  {| _value := _value this;
     element := countWrite
       (ShadowTemplateMixin.ids (setInputValue (_value this)) e) |}.

Definition connectedCallback (this : SpinBox) : SpinBox := render this.

Definition get_value (this : SpinBox) : JS.value := _value this.

Definition set_value (value : JS.value) (this : SpinBox) : SpinBox :=
  render {| _value := value; element := element this |}.

Definition attributeChangedCallback (attributeName : string)
  (newValue : option string) (this : SpinBox) : completion SpinBox :=
  if bool_decide (attributeName = "value") then
    withNumber (JS.parseInt (attributeText newValue))
      (fun n => Normal (set_value (JS.VNum n) this))
  else Normal this.

Definition stepValue (k : Z) (this : SpinBox) : completion SpinBox :=
  withNumber (JS.ToNumber (get_value this)) (fun old =>
  withNumber (JS.add old k) (fun new =>
  Normal (set_value (JS.VNum new) this))).

Definition invoke (f : closure) (this : SpinBox) : completion SpinBox :=
  match f with
  | SetFromInput =>
      match shadowRoot (element this) with
      | Some root => Normal (set_value (JS.VStr (inputValue root)) this)
      | None => Throw this
      end
  | Decrement => stepValue (-1) this
  | Increment => stepValue 1 this
  end.

Definition dispatch (t : elementId) (ty : eventType) (this : SpinBox)
  : completion SpinBox :=
  match shadowRoot (element this) with
  | Some root => runListeners invoke (listenersFor t ty root) this
  | None => Normal this
  end.

Definition step (e : event) (this : SpinBox) : completion SpinBox :=
  match e with
  | Connected => Normal (connectedCallback this)
  | Disconnected => Normal this
  | AttributeSet name newValue =>
      if bool_decide (name ∈ observedAttributes)
      then attributeChangedCallback name newValue this
      else Normal this
  | PropertySet v => Normal (set_value v this)
  | UserEdit text =>
      match shadowRoot (element this) with
      | Some root =>
          dispatch input inputEvent
            {| _value := _value this;
               element := withShadowRoot (typeText text root) (element this) |}
      | None => Normal this
      end
  | MouseDown t => dispatch t mousedownEvent this
  | EndOfTurn => Normal this
  end.

(** Between two events the handlers are wired at most once and the field
    shows the value. *)
Definition consistent (this : SpinBox) : Prop :=
  wiredOnce (element this) /\ shows (_value this) (element this).

End Example03.

(** ** ReactiveState *)

Module ReactiveState.

(** Modelled from the spec: the per-instance state machine of section 4.2,
    [Unattached → FirstRenderPending → Idle ⇄ RenderScheduled].
    Detachment is left out: the spec leaves the policy for an update after
    it open (sections 4.2 and 9). *)
Inductive phase : Type :=
  | Unattached
  | FirstRenderPending
  | Idle
  | RenderScheduled.

#[global] Instance phase_eq_dec : EqDecision phase.
Proof. solve_decision. Defined.

Section Instance.
Context {V : Type} `{EqDecision V} {D : Type}.

(** Modelled from the spec: a render pass as section 3 describes it, the
    execution of the render logic against a snapshot, a change set and
    the first-render flag. *)
Record pass : Type := {
  observed : gmap string V;
  changes : gset string;
  firstRender : bool
}.

(** Modelled from the spec: what a component hands to the mixin
    (section 4.2): its default state, its render callback, and the
    optional [rendered] callback. The callbacks act on the component's
    own part [D]; the snapshot is read-only to them (section 3). *)
Record component : Type := {
  defaultState : gmap string V;
  render : gset string -> gmap string V -> bool -> D -> D;
  rendered : option (D -> D)
}.

(** Modelled from the spec: the instance of section 4.2, one
    authoritative current snapshot, the change set accumulated since the
    last completed pass, and the scheduling state. [passes] records the
    render passes that ran, oldest first; it is a ghost field. *)
Record instance : Type := {
  current : gmap string V;
  changed : gset string;
  stage : phase;
  own : D;
  passes : list pass
}.

(** Modelled from the spec: the shallow merge of a partial update over a
    snapshot (section 3). *)
Definition merge (snapshot partial : gmap string V) : gmap string V :=
  partial ∪ snapshot.

(** Modelled from the spec: the change set of section 3, the fields whose
    value differs between the prior snapshot and the new one. *)
Definition differing (prior next : gmap string V) : gset string :=
  filter (fun k => prior !! k ≠ next !! k) (dom prior ∪ dom next).


(** Modelled from the spec: the update operation (section 4.2, merge
    semantics). A merge equal to the current snapshot changes nothing;
    otherwise the merge becomes the current snapshot, its changed fields
    join the accumulated change set, and a pass is scheduled unless one
    is pending already (the first pass of an unattached instance, or a
    scheduled one). *)
Definition update (partial : gmap string V) (i : instance) : instance :=
  let next := merge (current i) partial in
  if decide (next = current i) then i
  else
    {| current := next;
       changed := changed i ∪ differing (current i) next;
       stage := match stage i with
                | Idle => RenderScheduled
                | s => s
                end;
       own := own i;
       passes := passes i |}.

(** Modelled from the spec: one render pass (sections 3 and 4.2). The
    render callback sees the current snapshot, the accumulated change set
    and the first-render flag; then the [rendered] callback runs, the
    change set is emptied and the instance is idle. *)
Definition renderPass (c : component) (first : bool) (i : instance)
  : instance :=
  let d := render c (changed i) (current i) first (own i) in
  let d := match rendered c with
           | Some f => f d
           | None => d
           end in
  {| current := current i;
     changed := ∅;
     stage := Idle;
     own := d;
     passes := passes i ++
       [{| observed := current i; changes := changed i; firstRender := first |}] |}.

(** Modelled from the spec: the snapshot is created from the component's
    default state (section 3). It is created here with the instance, so
    that the accessors of a widget have a snapshot to read before the
    first attach; compared with the absence of a prior snapshot, every
    field of the default state counts as changed. *)
Definition create (c : component) (d : D) : instance :=
  update (defaultState c)
    {| current := ∅; changed := ∅; stage := Unattached; own := d;
       passes := [] |}.

(** Modelled from the spec: attach (section 4.2) takes an unattached
    instance through [FirstRenderPending] and the first render pass to
    [Idle]. The state machine has no attach transition from another
    phase. *)
Definition attach (c : component) (i : instance) : instance :=
  match stage i with
  | Unattached =>
      renderPass c true
        {| current := current i; changed := changed i;
           stage := FirstRenderPending; own := own i; passes := passes i |}
  | _ => i
  end.

(** Modelled from the spec: the end of a synchronous turn of execution
    (section 4.2, coalescing): the scheduled pass, if any, runs. *)
Definition endOfTurn (c : component) (i : instance) : instance :=
  match stage i with
  | RenderScheduled => renderPass c false i
  | _ => i
  end.

Definition withOwn (d : D) (i : instance) : instance :=
  {| current := current i; changed := changed i; stage := stage i;
     own := d; passes := passes i |}.

(** A burst of updates issued one after the other within one turn. *)
Definition updates (partials : list (gmap string V)) (i : instance)
  : instance :=
  foldl (fun j partial => update partial j) i partials.



(** Attached: past the first render pass. *)
Definition attached (i : instance) : Prop :=
  stage i = Idle \/ stage i = RenderScheduled.


End Instance.

Arguments pass : clear implicits.
Arguments component : clear implicits.
Arguments instance : clear implicits.

End ReactiveState.

(** ** The reactive spin box

    [class SpinBox extends ReactiveMixin(ShadowTemplateMixin(HTMLElement))]
    of example 4: [attributeChangedCallback], the [value] accessors and the
    three listeners its render attaches. The component (default state and
    render callback) is a parameter of the event step, so that
    [CustomSpinBox], which overrides those two members, shares the rest;
    example 4's own component is [Example04.SpinBox] below. *)

Module ReactiveSpinBox.
Import DOM ReactiveState.

Abbreviation SpinBox := (instance JS.value Element).
Abbreviation Component := (component JS.value Element).

Definition observedAttributes : list string := ["value"].

(** [this[state].value]: an absent field reads as [undefined]. *)
Definition stateValue (state : gmap string JS.value) : JS.value :=
  default JS.VUndef (state !! "value").

Definition get_value (this : SpinBox) : JS.value :=
  stateValue (current this).

(** [this[setState]({ value })]. *)
Definition set_value (value : JS.value) (this : SpinBox) : SpinBox :=
  update {["value" := value]} this.

Definition attributeChangedCallback (attributeName : string)
  (newValue : option string) (this : SpinBox) : completion SpinBox :=
  if bool_decide (attributeName = "value") then
    withNumber (JS.parseInt (attributeText newValue))
      (fun n => Normal (set_value (JS.VNum n) this))
  else Normal this.

Definition stepValue (k : Z) (this : SpinBox) : completion SpinBox :=
  withNumber (JS.ToNumber (get_value this)) (fun old =>
  withNumber (JS.add old k) (fun new =>
  Normal (set_value (JS.VNum new) this))).

Definition invoke (f : closure) (this : SpinBox) : completion SpinBox :=
  match f with
  | SetFromInput =>
      match shadowRoot (own this) with
      | Some root => Normal (set_value (JS.VStr (inputValue root)) this)
      | None => Throw this
      end
  | Decrement => stepValue (-1) this
  | Increment => stepValue 1 this
  end.

Definition dispatch (t : elementId) (ty : eventType) (this : SpinBox)
  : completion SpinBox :=
  match shadowRoot (own this) with
  | Some root => runListeners invoke (listenersFor t ty root) this
  | None => Normal this
  end.

(** [Connected] is the mixin's attach and [EndOfTurn] runs the scheduled
    pass. What a reactive instance does once disconnected is not
    represented. *)
Definition step (c : Component) (e : event) (this : SpinBox)
  : completion SpinBox :=
  match e with
  | Connected => Normal (attach c this)
  | Disconnected => Unmodelled
  | AttributeSet name newValue =>
      if bool_decide (name ∈ observedAttributes)
      then attributeChangedCallback name newValue this
      else Normal this
  | PropertySet v => Normal (set_value v this)
  | UserEdit text =>
      match shadowRoot (own this) with
      | Some root =>
          dispatch input inputEvent
            (withOwn (withShadowRoot (typeText text root) (own this)) this)
      | None => Normal this
      end
  | MouseDown t => dispatch t mousedownEvent this
  | EndOfTurn => Normal (endOfTurn c this)
  end.

(** The passes of an instance begin with the one first pass. *)
Definition staged (this : SpinBox) : Prop :=
  (stage this = Unattached /\ passes this = [])
  \/ (attached this
      /\ exists p ps, passes this = p :: ps
           /\ firstRender p = true
           /\ Forall (fun q => firstRender q = false) ps).

End ReactiveSpinBox.

(** ** Example 4: the element on top of ReactiveMixin *)

Module Example04.
Import DOM ReactiveState.

(** [{ ...super[defaultState], value: 0 }] over the mixin's empty default
    state. *)
Definition defaultState : gmap string JS.value :=
  <["value" := JS.VNum (JS.Int 0)]> ∅.

Definition wire (e : Element) : Element :=
  let e := ShadowTemplateMixin.ids
             (addEventListener input inputEvent SetFromInput) e in
  let e := ShadowTemplateMixin.ids
             (addEventListener downButton mousedownEvent Decrement) e in
  ShadowTemplateMixin.ids
    (addEventListener upButton mousedownEvent Increment) e.

Definition render (changed : gset string) (state : gmap string JS.value)
  (firstRender : bool) (this : Element) : Element :=
  (* Populates shadow root from template. *)
  let this := ShadowTemplateMixin.render this in
  (* Wire up event handlers. *)
  let this := if firstRender then wire this else this in
  if bool_decide ("value" ∈ changed) then
    (* Render value state to input. *)
    countWrite
      (ShadowTemplateMixin.ids
         (setInputValue (ReactiveSpinBox.stateValue state)) this)
  else this.

Definition SpinBox : component JS.value Element :=
  {| ReactiveState.defaultState := defaultState;
     ReactiveState.render := render;
     ReactiveState.rendered := None |}.

Definition constructor : instance JS.value Element :=
  create SpinBox createElement.

Definition step := ReactiveSpinBox.step SpinBox.

(** What holds of an element between two events, the field left aside: the
    snapshot has a [value]; the handlers are wired at most once; an
    unattached element has no shadow root and its first pass will see
    [value] marked; an attached one has a shadow root, and nothing is marked
    while it is idle. *)
Definition based (this : instance JS.value Element) : Prop :=
  is_Some (current this !! "value")
  /\ wiredOnce (own this)
  /\ match stage this with
     | Unattached => shadowRoot (own this) = None /\ "value" ∈ changed this
     | FirstRenderPending => False
     | Idle => is_Some (shadowRoot (own this)) /\ changed this = ∅
     | RenderScheduled => is_Some (shadowRoot (own this))
     end.

(** Between two events the field shows the value, unless the pending pass
    is going to rewrite it. *)
Definition consistent (this : instance JS.value Element) : Prop :=
  based this
  /\ ("value" ∈ changed this
      \/ shows (ReactiveSpinBox.get_value this) (own this)).

End Example04.

(** ** Example 12: the themed spin box

    [class CustomSpinBox extends SpinBox]. Its template getter only restyles
    the markup and relabels the buttons; it is not represented. *)

Module Example12.
Import DOM ReactiveState.

(** A reference to the class [CustomButton]. *)
Definition CustomButton : JS.value := JS.VObj "class CustomButton".

(** Modelled from the spec: [12/SpinBox.js], the base class, is not among
    the sources. Section 4.3: the widget declares a default state with a
    numeric [value] field, 0 by default, and its render logic attaches the
    three listeners on the first pass and writes the value into the field
    on a pass whose change set marks [value]; that is the render logic of
    example 4. *)
Definition SpinBox_defaultState : gmap string JS.value :=
  <["value" := JS.VNum (JS.Int 0)]> ∅.

(** Modelled from the spec: the render logic of the base class, section 4.3
    (see above). *)
Definition SpinBox_render := Example04.render.

(** [{ ...super[internal.defaultState], buttonPartType: CustomButton }]. *)
Definition defaultState : gmap string JS.value :=
  <["buttonPartType" := CustomButton]> SpinBox_defaultState.

(** [parseInt(value) < 0]. The comparison is decided on the integer
    [parseInt] reads: the conversion to a number value keeps its sign. *)
Definition isNegative (value : JS.value) : bool :=
  JS.ltZero (JS.parseIntMath (JS.ToString value)).

Definition render (changed : gset string) (state : gmap string JS.value)
  (firstRender : bool) (this : Element) : Element :=
  let this := SpinBox_render changed state firstRender this in
  if bool_decide ("value" ∈ changed) then
    let value := ReactiveSpinBox.stateValue state in
    let negative := isNegative value in
    setStyle (if negative then "rgb(255, 0, 255)" else "")
             (if negative then "rgba(255, 0, 255, 0.1)" else "")
             this
  else this.

Definition CustomSpinBox : component JS.value Element :=
  {| ReactiveState.defaultState := defaultState;
     ReactiveState.render := render;
     ReactiveState.rendered := None |}.

Definition constructor : instance JS.value Element :=
  create CustomSpinBox createElement.

Definition step := ReactiveSpinBox.step CustomSpinBox.

End Example12.

(** ** What a page observes of the examples *)

Module Observation.
Import DOM ReactiveState.

(** The net effect of a mousedown on the value: the increment button adds
    one, the decrement button takes one away, the field has no mousedown
    listener. *)
Definition stepOf (t : elementId) : Z :=
  match t with
  | upButton => 1
  | downButton => -1
  | input => 0
  end.

Definition net (ts : list elementId) : Z :=
  foldr (fun t acc => stepOf t + acc) 0 ts.

Definition throws {A : Type} (c : completion A) : bool :=
  match c with
  | Throw _ => true
  | _ => false
  end.

(** Examples 1 and 3 keep the same two things: the value and the element. *)
Definition view01 (this : Example01.SpinBox) : JS.value * Element :=
  (Example01._value this, Example01.element this).

Definition view03 (this : Example03.SpinBox) : JS.value * Element :=
  (Example03._value this, Example03.element this).

(** Two elements in step: the same value, the same element, and a shadow
    root. *)
Definition inStep (a : Example01.SpinBox) (b : Example03.SpinBox) : Prop :=
  view01 a = view03 b /\ is_Some (shadowRoot (Example01.element a)).

Definition inStepCompletion (c1 : completion Example01.SpinBox)
  (c3 : completion Example03.SpinBox) : Prop :=
  match c1, c3 with
  | Normal a, Normal b => inStep a b
  | Unmodelled, Unmodelled => True
  | _, _ => False
  end.

(** The passes that rewrote the field: those whose change set marks
    [value]. *)
Definition marking {V : Type} (ps : list (pass V)) : list (pass V) :=
  filter (fun p => "value" ∈ changes p) ps.

(** The two reactive spin boxes: that of example 4 and the themed one. *)
Definition spinBoxComponent (c : ReactiveSpinBox.Component) : Prop :=
  c = Example04.SpinBox \/ c = Example12.CustomSpinBox.

(** The assignments made to the field are accounted for by the passes
    that mark [value]. *)
Definition accounted (this : instance JS.value Element) : Prop :=
  writes (own this) = length (marking (passes this)).

(** What a page sees of a spin box: the value its property returns and the
    text its field shows. *)
Definition shown03 (this : Example03.SpinBox) : JS.value * option string :=
  (Example03.get_value this, shownText (Example03.element this)).

Definition shown04 (this : instance JS.value Element)
  : JS.value * option string :=
  (ReactiveSpinBox.get_value this, shownText (own this)).

(** The colors [CustomSpinBox] gives its host for a value. *)
Definition themeBorder (v : JS.value) : string :=
  if Example12.isNegative v then "rgb(255, 0, 255)" else "".

Definition themeBackground (v : JS.value) : string :=
  if Example12.isNegative v then "rgba(255, 0, 255, 0.1)" else "".

Definition themed (this : instance JS.value Element) : Prop :=
  borderColor (own this) = themeBorder (ReactiveSpinBox.get_value this)
  /\ backgroundColor (own this)
     = themeBackground (ReactiveSpinBox.get_value this).

(** What holds of a themed element between two events: nothing is marked
    while it is idle, and the colors fit the value unless the pending pass
    is going to set them. *)
Definition themeKept (this : instance JS.value Element) : Prop :=
  (stage this = Idle -> changed this = ∅)
  /\ ("value" ∈ changed this \/ themed this).

(** A spin box of example 3 and one of example 4 that went through the
    same events: the same value, both rendered. *)
Definition alike (a : Example03.SpinBox) (b : instance JS.value Element)
  : Prop :=
  Example03._value a = ReactiveSpinBox.get_value b
  /\ Example03.consistent a
  /\ is_Some (shadowRoot (Example03.element a))
  /\ Example04.consistent b
  /\ attached b.

(** What two runs over the same events leave: two elements alike, or
    nothing on either side. *)
Definition alikeOutcome (a : option Example03.SpinBox)
  (b : option (instance JS.value Element)) : Prop :=
  match a, b with
  | Some a', Some b' => alike a' b'
  | None, None => True
  | _, _ => False
  end.

End Observation.

(** * Properties *)

(** ** Sanity checks of the host functions *)

Example parseInt_5 : JS.parseInt (JS.VStr "5") = Some (JS.Int 5).
Proof. reflexivity. Qed.
Example parseInt_abc : JS.parseInt (JS.VStr "abc") = Some JS.NaN.
Proof. reflexivity. Qed.
Example parseInt_hex : JS.parseInt (JS.VStr "  -0x1F!") = Some (JS.Int (-31)).
Proof. reflexivity. Qed.
Example parseInt_12px : JS.parseInt (JS.VStr "12px") = Some (JS.Int 12).
Proof. reflexivity. Qed.
Example toString_m17 : JS.ToString (JS.VNum (JS.Int (-170))) = "-170".
Proof. reflexivity. Qed.
Example toString_0 : JS.ToString (JS.VNum (JS.Int 0)) = "0".
Proof. reflexivity. Qed.
Example toNumber_sp : JS.ToNumber (JS.VStr " 42 ") = Some (JS.Int 42).
Proof. reflexivity. Qed.
Example toNumber_frac : JS.ToNumber (JS.VStr "1.5") = None.
Proof. reflexivity. Qed.
Example toNumber_abc : JS.ToNumber (JS.VStr "abc") = Some JS.NaN.
Proof. reflexivity. Qed.
Example toString_half : JS.ToString (JS.VNum (JS.Frac (-1) 1 I)) = "-0.5".
Proof. reflexivity. Qed.
Example toString_sixteenths :
  JS.ToString (JS.VNum (JS.Frac 17 4 I)) = "1.0625"
  /\ JS.ToString (JS.VNum (JS.Frac 1 4 I)) = "0.0625".
Proof. by split. Qed.
Example parseInt_half :
  JS.parseInt (JS.VNum (JS.Frac (-1) 1 I)) = Some (JS.Int 0).
Proof. reflexivity. Qed.
Example add_half : JS.add (JS.Frac (-1) 1 I) 1 = Some (JS.Frac 1 1 I).
Proof. reflexivity. Qed.
(** 0.1 is [3602879701896397 / 2^55]: its text is not its expansion, and
    it is not represented. *)
Example tenth_not_represented : JS.fraction 3602879701896397 55 = None.
Proof. reflexivity. Qed.
(** The text "-0.5", as typed into the field, reads as 0 for the themed
    spin box, and "-1.5" as -1. *)
Example typed_half_reads_zero :
  Example12.isNegative (JS.VStr "-0.5") = false
  /\ Example12.isNegative (JS.VStr "-1.5") = true.
Proof. by split. Qed.
Example fieldText_null :
  DOM.fieldText JS.VNull = "" /\ DOM.fieldText JS.VUndef = "undefined".
Proof. by split. Qed.

(** [<spin-box value="5">] in the markup of example 1: the attribute
    callback throws, the element is then connected and shows 5. *)
Example markup_attribute_01 :
  (DOM.shownText ∘ Example01.element <$>
     DOM.run Example01.step
       [DOM.AttributeSet "value" (Some "5"); DOM.Connected]
       Example01.constructor) = Some (Some "5").
Proof. reflexivity. Qed.

(** [el.value = null] on a connected element of example 1: the property
    holds [null] and the field is empty. *)
Example null_write_01 :
  ((fun this => (Example01.get_value this,
                 DOM.shownText (Example01.element this))) <$>
     DOM.run Example01.step [DOM.Connected; DOM.PropertySet JS.VNull]
       Example01.constructor) = Some (JS.VNull, Some "").
Proof. reflexivity. Qed.

(** Two presses within one turn of example 4: one pass, the field shows 2. *)
Example two_presses_04 :
  ((fun this => (DOM.shownText (ReactiveState.own this),
                 length (ReactiveState.passes this))) <$>
     DOM.run Example04.step
       [DOM.Connected; DOM.MouseDown DOM.upButton; DOM.MouseDown DOM.upButton;
        DOM.EndOfTurn]
       Example04.constructor) = Some (Some "2", 2%nat).
Proof. by vm_compute. Qed.

(** ** Numbers and their decimal text *)

Section JSFacts.
Import JS.
Local Open Scope N_scope.

Lemma decimalDigit_cases c d :
  decimalDigit c = Some d ->
  c ∈ ["0"; "1"; "2"; "3"; "4"; "5"; "6"; "7"; "8"; "9"]%char.
Proof.
  destruct c as [[] [] [] [] [] [] [] []]; intros Hd;
    try discriminate Hd; repeat (first [by left | right]).
Qed.

Lemma decimalDigit_digitChar d : d < 10 -> decimalDigit (digitChar d) = Some d.
Proof.
  intros Hd. rewrite <- (N2Nat.id d).
  assert (N.to_nat d < 10)%nat as Hlt by lia.
  destruct (N.to_nat d) as [|[|[|[|[|[|[|[|[|[|?]]]]]]]]]]; try done; lia.
Qed.



Lemma allDigits_printDigits fuel n acc :
  allDigits acc = true -> allDigits (printDigits fuel n acc) = true.
Proof.
  revert n acc. induction fuel as [|fuel IH]; intros n acc Hacc; [done|].
  cbn [printDigits].
  assert (allDigits (String (digitChar (n mod 10)) acc) = true) as Hd.
  { simpl. rewrite decimalDigit_digitChar by (apply N.mod_lt; lia).
    rewrite Hacc. apply andb_true_iff. split; [|done].
    apply bool_decide_eq_true. eauto. }
  destruct (n <? 10); [done|]. by apply IH.
Qed.





Lemma allDigits_printFixed width n acc :
  allDigits acc = true -> allDigits (printFixed width n acc) = true.
Proof.
  revert n acc. induction width as [|width IH]; intros n acc Hacc; [done|].
  cbn [printFixed]. apply IH. simpl.
  rewrite decimalDigit_digitChar by (apply N.mod_lt; lia).
  rewrite Hacc. apply andb_true_iff. split; [|done].
  apply bool_decide_eq_true. eauto.
Qed.





End JSFacts.

(** ** ReactiveState *)

Section ReactiveStateFacts.
Import ReactiveState.
Context {V : Type} `{EqDecision V} {D : Type}.
Implicit Types (i : instance V D) (c : component V D).
Implicit Types (s partial : gmap string V).

Lemma differing_empty_iff s s' : differing s s' = ∅ <-> s = s'.
Proof.
  unfold differing. split.
  - intros Hempty. apply map_eq. intros k.
    destruct (decide (s !! k = s' !! k)) as [|Hne]; [done|].
    exfalso. apply (not_elem_of_empty (C:=gset string) k).
    rewrite <- Hempty. apply elem_of_filter. split; [done|].
    apply elem_of_union. rewrite !elem_of_dom.
    destruct (s !! k) eqn:Hs; [left; eauto|].
    destruct (s' !! k) eqn:Hs'; [right; eauto|]. done.
  - intros ->. apply set_eq. intros k. rewrite elem_of_filter.
    split; [intros [Hne _]; done | intros Hk; by apply not_elem_of_empty in Hk].
Qed.

Lemma differing_refl s : differing s s = ∅.
Proof. by apply differing_empty_iff. Qed.

Lemma elem_of_differing k s s' : k ∈ differing s s' <-> s !! k ≠ s' !! k.
Proof.
  unfold differing. rewrite elem_of_filter, elem_of_union, !elem_of_dom.
  split; [tauto|]. intros Hne. split; [done|].
  destruct (s !! k) eqn:Hs; [left; eauto|].
  destruct (s' !! k) eqn:Hs'; [right; eauto|]. done.
Qed.

Lemma update_redundant partial i :
  merge (current i) partial = current i -> update partial i = i.
Proof. intros Heq. unfold update. by rewrite decide_True. Qed.

Lemma update_current partial i :
  current (update partial i) = merge (current i) partial.
Proof. unfold update. destruct (decide _); simpl; congruence. Qed.

Lemma update_changed partial i :
  changed (update partial i)
  = changed i ∪ differing (current i) (merge (current i) partial).
Proof.
  unfold update. destruct (decide _) as [Heq|]; simpl; [|done].
  rewrite Heq, differing_refl. set_solver.
Qed.

Lemma update_passes partial i : passes (update partial i) = passes i.
Proof. unfold update. by destruct (decide _). Qed.

Lemma update_own partial i : own (update partial i) = own i.
Proof. unfold update. by destruct (decide _). Qed.

Lemma update_stage partial i :
  stage (update partial i)
  = if decide (merge (current i) partial = current i) then stage i
    else match stage i with Idle => RenderScheduled | st => st end.
Proof. unfold update. by destruct (decide _). Qed.

Lemma update_attached partial i : attached i -> attached (update partial i).
Proof.
  unfold attached. rewrite update_stage. destruct (decide _); [done|].
  intros [-> | ->]; by right.
Qed.

Lemma attach_current c i : current (attach c i) = current i.
Proof. unfold attach. by destruct (stage i). Qed.


Lemma updates_cons partial ps i :
  updates (partial :: ps) i = updates ps (update partial i).
Proof. done. Qed.


Lemma updates_own ps i : own (updates ps i) = own i.
Proof.
  revert i. induction ps as [|partial ps IH]; intros i; [done|].
  by rewrite updates_cons, IH, update_own.
Qed.







End ReactiveStateFacts.

(** ** Runs of events *)

Section RunFacts.
Context {A : Type} (P : A -> Prop).

Lemma runListeners_preserves (invoke : DOM.closure -> A -> completion A) :
  (forall f a a', P a -> outcome (invoke f a) = Some a' -> P a') ->
  forall fs a a',
    P a -> outcome (DOM.runListeners invoke fs a) = Some a' -> P a'.
Proof.
  intros Hinv fs. induction fs as [|f fs IH]; intros a a' Ha; simpl.
  - by intros [= <-].
  - destruct (invoke f a) as [b|b|] eqn:Hf; simpl; [| |done].
    + apply IH. by apply (Hinv f a); [|rewrite Hf].
    + assert (P b) as Hb by (by apply (Hinv f a); [|rewrite Hf]).
      destruct (DOM.runListeners invoke fs b) as [b'|b'|] eqn:Hfs;
        simpl; [| |done]; intros [= <-]; apply (IH b); by rewrite ?Hfs.
Qed.

Lemma run_preserves (step : DOM.event -> A -> completion A) :
  (forall e a a', P a -> outcome (step e a) = Some a' -> P a') ->
  forall es a a', P a -> DOM.run step es a = Some a' -> P a'.
Proof.
  intros Hstep es. induction es as [|e es IH]; intros a a' Ha; simpl.
  - by intros [= <-].
  - destruct (outcome (step e a)) as [b|] eqn:Hb; [|done].
    apply IH. by apply (Hstep e a).
Qed.

End RunFacts.

Lemma run_app {A : Type} (step : DOM.event -> A -> completion A) es es' a :
  DOM.run step (es ++ es') a = DOM.run step es a ≫= DOM.run step es'.
Proof.
  revert a. induction es as [|e es IH]; intros a; simpl; [done|].
  destruct (outcome (step e a)); [apply IH|done].
Qed.

(** ** The reactive spin box: scheduling *)

Section ReactiveSpinBoxFacts.
Import DOM ReactiveState ReactiveSpinBox.
Implicit Types (this : SpinBox) (c : Component).

Lemma staged_update partial this : staged this -> staged (update partial this).
Proof.
  unfold staged. rewrite update_passes, update_stage.
  intros [[Hs Hp]|[Ha Hp]].
  - left. rewrite Hs. by destruct (decide _).
  - right. split; [|done]. by apply update_attached.
Qed.

Lemma staged_withOwn d this : staged this -> staged (withOwn d this).
Proof. done. Qed.

Lemma staged_attach c this : staged this -> staged (attach c this).
Proof.
  intros Hst. unfold attach.
  destruct (stage this) eqn:Hs; try done.
  destruct Hst as [[_ Hp]|[[?|?] _]]; [|congruence..].
  right. split; [by left|]. simpl. rewrite Hp. simpl. eauto.
Qed.

Lemma staged_endOfTurn c this : staged this -> staged (endOfTurn c this).
Proof.
  intros Hst. unfold endOfTurn.
  destruct (stage this) eqn:Hs; try done.
  destruct Hst as [[? _]|[_ (p & ps & Hp & Hfirst & Hrest)]]; [congruence|].
  right. split; [by left|]. simpl. rewrite Hp. simpl.
  exists p, (ps ++ [{| observed := current this; changes := changed this;
                       firstRender := false |}])%list.
  split; [done|]. split; [done|].
  apply Forall_app. split; [done|]. by apply Forall_singleton.
Qed.

Lemma staged_stepValue k this this' :
  staged this -> outcome (stepValue k this) = Some this' -> staged this'.
Proof.
  unfold stepValue, withNumber. intros Hst.
  destruct (JS.ToNumber _); [|done]. destruct (JS.add _ _); [|done].
  intros [= <-]. by apply staged_update.
Qed.

Lemma staged_invoke f this this' :
  staged this -> outcome (invoke f this) = Some this' -> staged this'.
Proof.
  destruct f; simpl; try apply staged_stepValue.
  intros Hst. destruct (shadowRoot (own this)); intros [= <-];
    [by apply staged_update|done].
Qed.

Lemma staged_dispatch t ty this this' :
  staged this -> outcome (dispatch t ty this) = Some this' -> staged this'.
Proof.
  unfold dispatch. destruct (shadowRoot (own this)).
  - apply runListeners_preserves. apply staged_invoke.
  - by intros ? [= <-].
Qed.

Lemma staged_step c e this this' :
  staged this -> outcome (step c e this) = Some this' -> staged this'.
Proof.
  intros Hst. destruct e; simpl.
  - intros [= <-]. by apply staged_attach.
  - done.
  - destruct (bool_decide _); [|by intros [= <-]].
    unfold attributeChangedCallback, withNumber.
    destruct (bool_decide _); [|by intros [= <-]].
    destruct (JS.parseInt _); [|done].
    intros [= <-]. by apply staged_update.
  - intros [= <-]. by apply staged_update.
  - destruct (shadowRoot (own this)); [|by intros [= <-]].
    by apply staged_dispatch.
  - by apply staged_dispatch.
  - intros [= <-]. by apply staged_endOfTurn.
Qed.

Lemma attached_attach c this : attached this -> attached (attach c this).
Proof. unfold attach. by intros [Hs|Hs]; rewrite Hs; [left|right]. Qed.

Lemma attached_endOfTurn c this : attached this -> attached (endOfTurn c this).
Proof. unfold endOfTurn. intros [Hs|Hs]; rewrite Hs; by left. Qed.

Lemma attached_stepValue k this this' :
  attached this -> outcome (stepValue k this) = Some this' -> attached this'.
Proof.
  unfold stepValue, withNumber. intros Ha.
  destruct (JS.ToNumber _); [|done]. destruct (JS.add _ _); [|done].
  intros [= <-]. by apply update_attached.
Qed.

Lemma attached_invoke f this this' :
  attached this -> outcome (invoke f this) = Some this' -> attached this'.
Proof.
  destruct f; simpl; try apply attached_stepValue.
  intros Ha. destruct (shadowRoot (own this)); intros [= <-];
    [by apply update_attached|done].
Qed.

Lemma attached_dispatch t ty this this' :
  attached this -> outcome (dispatch t ty this) = Some this' -> attached this'.
Proof.
  unfold dispatch. destruct (shadowRoot (own this)).
  - apply runListeners_preserves. apply attached_invoke.
  - by intros ? [= <-].
Qed.

Lemma attached_step c e this this' :
  attached this -> outcome (step c e this) = Some this' -> attached this'.
Proof.
  intros Ha. destruct e; simpl.
  - intros [= <-]. by apply attached_attach.
  - done.
  - destruct (bool_decide _); [|by intros [= <-]].
    unfold attributeChangedCallback, withNumber.
    destruct (bool_decide _); [|by intros [= <-]].
    destruct (JS.parseInt _); [|done].
    intros [= <-]. by apply update_attached.
  - intros [= <-]. by apply update_attached.
  - destruct (shadowRoot (own this)); [|by intros [= <-]].
    by apply attached_dispatch.
  - by apply attached_dispatch.
  - intros [= <-]. by apply attached_endOfTurn.
Qed.

Lemma staged_create c d : staged (create c d).
Proof. apply staged_update. by left. Qed.

(** C3. The first pass of a freshly attached instance sees the
    first-render flag set, and in every run of the element the passes are
    that first pass followed by passes that see the flag cleared. *)
Theorem first_render_flag c d es this :
  run (step c) es (create c d) = Some this ->
  (firstRender <$> passes (attach c (create c d))) = [true]
  /\ match passes this with
     | [] => stage this = Unattached
     | p :: ps =>
         firstRender p = true /\ Forall (fun q => firstRender q = false) ps
     end.
Proof.
  intros Hrun. split.
  - unfold attach, create. rewrite update_stage, update_passes. simpl.
    by destruct (decide _).
  - assert (staged this) as [[Hs Hp]|[_ (p & ps & Hp & ? & ?)]].
    { eapply run_preserves; [apply staged_step|apply staged_create|done]. }
    + by rewrite Hp.
    + by rewrite Hp.
Qed.

End ReactiveSpinBoxFacts.

(** ** Example 1 *)

Section Example01Facts.
Import DOM Example01.
Implicit Types (this : SpinBox) (v : JS.value).

Lemma listenersFor_wired t ty root :
  listeners root = wired ->
  listenersFor t ty root
  = match t, ty with
    | input, inputEvent => [SetFromInput]
    | downButton, mousedownEvent => [Decrement]
    | upButton, mousedownEvent => [Increment]
    | _, _ => []
    end.
Proof. unfold listenersFor. intros ->. by destruct t, ty. Qed.

Lemma runListeners_one {A : Type} (invoke : closure -> A -> completion A) f a :
  runListeners invoke [f] a = invoke f a.
Proof. simpl. by destruct (invoke f a). Qed.

Lemma set_value_root v this root :
  shadowRoot (element this) = Some root ->
  set_value v this
  = Normal {| _value := v;
              element := countWrite
                (withShadowRoot (setInputValue v root) (element this)) |}.
Proof. unfold set_value, renderValue. simpl. by intros ->. Qed.

Lemma set_value_no_root v this :
  shadowRoot (element this) = None ->
  set_value v this = Throw {| _value := v; element := element this |}.
Proof. unfold set_value, renderValue. simpl. by intros ->. Qed.

Lemma wiredOnce_listeners e root :
  wiredOnce e -> shadowRoot e = Some root -> listeners root = wired.
Proof. unfold wiredOnce. intros Hw Hr. rewrite Hr in Hw. tauto. Qed.

(** A write needs the handlers wired, not the field up to date: it rewrites
    the field. *)
Lemma consistent_set_value v this this' :
  wiredOnce (element this) -> outcome (set_value v this) = Some this' ->
  consistent this' /\ sameRoot this this'.
Proof.
  unfold consistent, sameRoot, wiredOnce, shows.
  destruct (shadowRoot (element this)) as [root|] eqn:Hr.
  - rewrite (set_value_root _ _ _ Hr). intros [Hi Hl] [= <-]. simpl.
    repeat split; eauto. by intros ? [= <-].
  - rewrite (set_value_no_root _ _ Hr). intros Hi [= <-]. simpl.
    rewrite Hr. by repeat split.
Qed.

Lemma consistent_stepValue k this this' :
  wiredOnce (element this) -> outcome (stepValue k this) = Some this' ->
  consistent this' /\ sameRoot this this'.
Proof.
  unfold stepValue, withNumber. intros Hc.
  destruct (JS.ToNumber _); [|done]. destruct (JS.add _ _); [|done].
  by apply consistent_set_value.
Qed.

Lemma consistent_connectedCallback this :
  wiredOnce (element this) ->
  exists this', connectedCallback this = Normal this'
    /\ consistent this'
    /\ _value this' = _value this
    /\ is_Some (shadowRoot (element this')).
Proof.
  unfold consistent, wiredOnce, shows, connectedCallback, renderValue.
  destruct this as [v e]. simpl.
  destruct (shadowRoot e) as [root|] eqn:Hr; simpl.
  - rewrite Hr. intros [Hi Hl]. eexists. split; [done|]. simpl.
    repeat split; eauto. by intros ? [= <-].
  - intros Hi. eexists. split; [done|]. simpl. rewrite Hi.
    repeat split; eauto. by intros ? [= <-].
Qed.

Lemma consistent_dispatch t ty this this' :
  consistent this -> outcome (dispatch t ty this) = Some this' ->
  consistent this' /\ sameRoot this this'.
Proof.
  intros [Hw Hs]. unfold dispatch.
  destruct (shadowRoot (element this)) as [root|] eqn:Hr.
  - rewrite (listenersFor_wired _ _ _ (wiredOnce_listeners _ _ Hw Hr)).
    destruct t, ty; rewrite ?runListeners_one; simpl;
      try (intros [= <-]; by split);
      try by apply consistent_stepValue.
    rewrite Hr. by apply consistent_set_value.
  - intros [= <-]. by split.
Qed.

Lemma consistent_step e this this' :
  consistent this -> outcome (step e this) = Some this' ->
  consistent this'
  /\ (is_Some (shadowRoot (element this'))
      <-> is_Some (shadowRoot (element this)) \/ e = Connected).
Proof.
  intros Hc Ho. pose proof Hc as [Hw Hs].
  assert (e ≠ Connected -> consistent this' /\ sameRoot this this') as Hother.
  { intros He. destruct e; simpl in Ho; try done.
    - by injection Ho as <-.
    - destruct (bool_decide _); [|by injection Ho as <-].
      unfold attributeChangedCallback, withNumber in Ho.
      destruct (bool_decide _); [|by injection Ho as <-].
      destruct (JS.parseInt _); [|done].
      by eapply consistent_set_value.
    - by eapply consistent_set_value.
    - destruct (shadowRoot (element this)) as [root|] eqn:Hr;
        [|injection Ho as <-; split; [done|]; unfold sameRoot; by rewrite Hr].
      pose proof (wiredOnce_listeners _ _ Hw Hr) as Hl.
      unfold dispatch in Ho. simpl in Ho.
      rewrite listenersFor_wired, runListeners_one in Ho by done.
      simpl in Ho.
      injection Ho as <-.
      unfold consistent, sameRoot, wiredOnce, shows in *. simpl.
      rewrite Hr in *. repeat split; eauto; try tauto. by intros ? [= <-].
    - by eapply consistent_dispatch.
    - by injection Ho as <-. }
  destruct (decide (e = Connected)) as [->|He].
  - simpl in Ho.
    destruct (consistent_connectedCallback this Hw) as (b & Hb & ? & _ & ?).
    rewrite Hb in Ho. injection Ho as <-. split; [done|]. split; eauto.
  - destruct (Hother He) as [? Hsame]. split; [done|].
    unfold sameRoot in Hsame. rewrite Hsame. tauto.
Qed.

Lemma consistent_constructor : consistent constructor.
Proof. split; [done|]. by intros ? [=]. Qed.

Lemma consistent_run es this this' :
  consistent this -> run step es this = Some this' ->
  consistent this'
  /\ (is_Some (shadowRoot (element this'))
      <-> is_Some (shadowRoot (element this)) \/ Connected ∈ es).
Proof.
  revert this. induction es as [|e es IH]; intros this Hc; simpl.
  - intros [= <-]. split; [done|]. rewrite elem_of_nil. tauto.
  - destruct (outcome (step e this)) as [b|] eqn:Hb; [|done].
    destruct (consistent_step e this b Hc Hb) as [Hcb Hroot].
    intros Hrun. destruct (IH b Hcb Hrun) as [? Hroot'].
    split; [done|]. rewrite Hroot', Hroot, elem_of_cons.
    split; [intros [[?|?]|?]|intros [?|[?|?]]]; auto.
Qed.

End Example01Facts.

Section Example01Claims.
Import DOM Example01.
Implicit Types (this : SpinBox) (v : JS.value).

Lemma attribute_root this root newValue n :
  shadowRoot (element this) = Some root ->
  JS.parseInt (attributeText newValue) = Some n ->
  step (AttributeSet "value" newValue) this
  = Normal {| _value := JS.VNum n;
              element := countWrite
                (withShadowRoot (setInputValue (JS.VNum n) root) (element this)) |}.
Proof.
  intros Hr Hn. simpl. unfold attributeChangedCallback. simpl.
  rewrite Hn. simpl. by apply set_value_root.
Qed.


Lemma press_root this root t k n m :
  shadowRoot (element this) = Some root ->
  listeners root = wired ->
  (t = downButton /\ k = -1 \/ t = upButton /\ k = 1) ->
  JS.ToNumber (_value this) = Some n ->
  JS.add n k = Some m ->
  step (MouseDown t) this
  = Normal {| _value := JS.VNum m;
              element := countWrite
                (withShadowRoot (setInputValue (JS.VNum m) root) (element this)) |}.
Proof.
  intros Hr Hl Ht Hn Hm. simpl. unfold dispatch. rewrite Hr.
  rewrite listenersFor_wired by done.
  destruct Ht as [[-> ->]|[-> ->]]; rewrite runListeners_one; simpl;
    unfold stepValue, get_value; rewrite Hn; simpl; rewrite Hm; simpl;
    by apply set_value_root.
Qed.

Lemma connected_root es this :
  run step es constructor = Some this -> Connected ∈ es ->
  exists root, shadowRoot (element this) = Some root /\ listeners root = wired.
Proof.
  intros Hrun Hin.
  destruct (consistent_run es _ _ consistent_constructor Hrun) as [Hc Hroot].
  destruct (proj2 Hroot (or_intror Hin)) as [root Hr].
  exists root. split; [done|]. destruct Hc as [Hw _].
  by apply (wiredOnce_listeners _ _ Hw).
Qed.



End Example01Claims.



(** ** Example 3 *)

Section Example03Facts.
Import DOM Example03.
Implicit Types (this : SpinBox) (v : JS.value).

(** After the mixin's render the shadow root is there: the lookups of
    [ids] that follow it find their node. *)
Lemma ShadowTemplateMixin_render_root e :
  is_Some (shadowRoot (ShadowTemplateMixin.render e)).
Proof.
  unfold ShadowTemplateMixin.render. destruct (shadowRoot e) eqn:Hr.
  - rewrite Hr. eauto.
  - simpl. eauto.
Qed.

Lemma render_root03 this root :
  shadowRoot (element this) = Some root ->
  render this
  = {| _value := _value this;
       element := countWrite
         (withShadowRoot (setInputValue (_value this) root) (element this)) |}.
Proof.
  destruct this as [v [r b g i w]]. simpl. intros ->. reflexivity.
Qed.

Lemma render_no_root03 this :
  shadowRoot (element this) = None ->
  render this
  = {| _value := _value this;
       element := countWrite
         (withShadowRoot
            (setInputValue (_value this)
               {| inputValue := ""; listeners := wired |})
            (attachTemplate (element this))) |}.
Proof.
  destruct this as [v [r b g i w]]. simpl. intros ->. reflexivity.
Qed.


(** A render needs the handlers wired at most once, not the field up to
    date: it rewrites the field. *)
Lemma consistent_render03 this :
  wiredOnce (element this) ->
  consistent (render this) /\ is_Some (shadowRoot (element (render this))).
Proof.
  unfold consistent, wiredOnce, shows.
  destruct (shadowRoot (element this)) as [root|] eqn:Hr.
  - rewrite (render_root03 _ _ Hr). simpl. intros [? ?].
    repeat split; eauto. by intros ? [= <-].
  - rewrite (render_no_root03 _ Hr). simpl. intros ->.
    repeat split; eauto. by intros ? [= <-].
Qed.

Lemma consistent_stepValue03 k this this' :
  wiredOnce (element this) -> outcome (stepValue k this) = Some this' ->
  consistent this' /\ is_Some (shadowRoot (element this')).
Proof.
  unfold stepValue, withNumber. intros Hw.
  destruct (JS.ToNumber _); [|done]. destruct (JS.add _ _); [|done].
  intros [= <-]. by apply consistent_render03.
Qed.

Lemma consistent_dispatch03 t ty this this' :
  consistent this -> outcome (dispatch t ty this) = Some this' ->
  consistent this'
  /\ (is_Some (shadowRoot (element this))
      -> is_Some (shadowRoot (element this'))).
Proof.
  intros [Hw Hs]. unfold dispatch.
  destruct (shadowRoot (element this)) as [root|] eqn:Hr.
  - rewrite (listenersFor_wired _ _ _ (wiredOnce_listeners _ _ Hw Hr)).
    destruct t, ty; rewrite ?runListeners_one; simpl;
      try (intros [= <-]; rewrite Hr; by repeat split; eauto);
      try (intros Ho; split; [|intros _]; by eapply consistent_stepValue03).
    rewrite Hr. intros [= <-]. split; [|intros _]; by apply consistent_render03.
  - intros [= <-]. rewrite Hr. by repeat split.
Qed.

Lemma consistent_step03 e this this' :
  consistent this -> outcome (step e this) = Some this' ->
  consistent this'
  /\ (is_Some (shadowRoot (element this)) \/ e = Connected
      -> is_Some (shadowRoot (element this'))).
Proof.
  intros Hc Ho. pose proof Hc as [Hw Hs].
  destruct e; simpl in Ho.
  - injection Ho as <-. split; [|intros _]; by apply consistent_render03.
  - injection Ho as <-. split; [done|]. by intros [?|?].
  - destruct (bool_decide _);
      [|injection Ho as <-; split; [done|]; by intros [?|?]].
    unfold attributeChangedCallback, withNumber in Ho.
    destruct (bool_decide _);
      [|injection Ho as <-; split; [done|]; by intros [?|?]].
    destruct (JS.parseInt _); [|done].
    injection Ho as <-. split; [|intros _]; by apply consistent_render03.
  - injection Ho as <-. split; [|intros _]; by apply consistent_render03.
  - destruct (shadowRoot (element this)) as [root|] eqn:Hr;
      [|injection Ho as <-; split; [done|]; rewrite Hr;
        by intros [[? [=]]|?]].
    pose proof (wiredOnce_listeners _ _ Hw Hr) as Hl.
    unfold dispatch in Ho. simpl in Ho.
    rewrite listenersFor_wired, runListeners_one in Ho by done.
    cbn [invoke element shadowRoot withShadowRoot outcome] in Ho.
    injection Ho as <-. split; [|intros _]; apply consistent_render03;
      unfold wiredOnce in *; simpl; by rewrite Hr in *.
  - apply consistent_dispatch03 in Ho; [|done]. destruct Ho as [? Himp].
    split; [done|]. by intros [?|?]; [apply Himp|].
  - injection Ho as <-. split; [done|]. by intros [?|?].
Qed.

Lemma consistent_constructor03 : consistent constructor.
Proof. split; [done|]. by intros ? [=]. Qed.

Lemma consistent_run03 es this this' :
  consistent this -> run step es this = Some this' ->
  consistent this'
  /\ (is_Some (shadowRoot (element this)) \/ Connected ∈ es
      -> is_Some (shadowRoot (element this'))).
Proof.
  revert this. induction es as [|e es IH]; intros this Hc; simpl.
  - intros [= <-]. split; [done|]. rewrite elem_of_nil. tauto.
  - destruct (outcome (step e this)) as [b|] eqn:Hb; [|done].
    destruct (consistent_step03 e this b Hc Hb) as [Hcb Hroot].
    intros Hrun. destruct (IH b Hcb Hrun) as [? Hroot'].
    split; [done|]. rewrite elem_of_cons. intros [?|[?|?]]; auto.
Qed.

End Example03Facts.

(** ** Example 4 *)

Section Example04Facts.
Import DOM ReactiveState ReactiveSpinBox Example04.
Implicit Types (this : instance JS.value Element) (v : JS.value).

Lemma stripNewlines_idemp s : stripNewlines (stripNewlines s) = stripNewlines s.
Proof.
  induction s as [|c s IH]; [done|]. simpl.
  destruct (bool_decide (c = "010"%char) || bool_decide (c = "013"%char))
    eqn:Hc; [done|].
  simpl. by rewrite Hc, IH.
Qed.

Lemma merge_value (s : gmap string JS.value) v :
  merge s {["value" := v]} = <["value" := v]> s.
Proof. unfold merge. by rewrite insert_union_singleton_l. Qed.

Lemma merge_value_same (s : gmap string JS.value) v :
  merge s {["value" := v]} = s <-> s !! "value" = Some v.
Proof.
  rewrite merge_value. split.
  - intros <-. by rewrite lookup_insert_eq.
  - apply insert_id.
Qed.

Lemma get_value_set_value v this : get_value (set_value v this) = v.
Proof.
  unfold get_value, set_value, stateValue.
  by rewrite update_current, merge_value, lookup_insert_eq.
Qed.

Lemma set_value_same v this :
  current this !! "value" = Some v -> set_value v this = this.
Proof. intros Hv. apply update_redundant. by apply merge_value_same. Qed.

Lemma set_value_marks v this :
  current this !! "value" ≠ Some v -> "value" ∈ changed (set_value v this).
Proof.
  intros Hv. unfold set_value. rewrite update_changed, merge_value.
  apply elem_of_union_r, elem_of_differing. by rewrite lookup_insert_eq.
Qed.


Lemma render_first ch st e :
  shadowRoot e = None -> "value" ∈ ch ->
  render ch st true e
  = countWrite
      (withShadowRoot
         {| inputValue := fieldText (stateValue st);
            listeners := wired |}
         (attachTemplate e)).
Proof.
  intros Hr Hch. unfold render. rewrite bool_decide_eq_true_2 by done.
  destruct e as [r b g i w]. simpl in *. by subst.
Qed.

Lemma render_later ch st e root :
  shadowRoot e = Some root ->
  render ch st false e
  = if bool_decide ("value" ∈ ch)
    then countWrite (withShadowRoot (setInputValue (stateValue st) root) e)
    else e.
Proof.
  intros Hr. unfold render. destruct e as [r b g i w]. simpl in *. by subst.
Qed.

Lemma based_set_value v this : based this -> based (set_value v this).
Proof.
  unfold based, set_value.
  rewrite update_current, update_own, update_stage, update_changed, merge_value.
  intros (Hv & Hw & Hst). split; [by rewrite lookup_insert_eq|].
  split; [done|].
  destruct (decide (<["value" := v]> (current this) = current this)) as [Heq|Hne].
  - rewrite Heq, differing_refl, (right_id_L ∅ (∪)). done.
  - destruct (stage this); try done; [|tauto].
    destruct Hst as [? ?]. split; [done|]. by apply elem_of_union_l.
Qed.

Lemma consistent_set_value04 v this :
  consistent this -> consistent (set_value v this).
Proof.
  intros [Hb Hs]. split; [by apply based_set_value|].
  destruct (decide (current this !! "value" = Some v)) as [Hv|Hv].
  - by rewrite (set_value_same _ _ Hv).
  - left. by apply set_value_marks.
Qed.

(** After the user typed, the field shows the text, not the value, until
    the input listener has run. *)
Lemma consistent_typed text root this :
  based this -> shadowRoot (own this) = Some root ->
  consistent
    (set_value (JS.VStr (stripNewlines text))
       (withOwn (withShadowRoot (typeText text root) (own this)) this)).
Proof.
  intros Hb Hr.
  set (typed := withOwn _ this).
  assert (based typed) as Hbt.
  { destruct Hb as (Hv & Hw & Hst). split; [done|]. split.
    - unfold wiredOnce in *. simpl. by rewrite Hr in Hw.
    - simpl. destruct (stage this); try done.
      + rewrite Hr in Hst. by destruct Hst.
      + split; [eauto|]. tauto. }
  split; [by apply based_set_value|].
  destruct (decide (current this !! "value"
                    = Some (JS.VStr (stripNewlines text)))) as [Hv|Hv].
  - rewrite set_value_same by done. right. intros ? [= <-]. simpl.
    unfold get_value, stateValue. simpl. rewrite Hv. simpl.
    by rewrite stripNewlines_idemp.
  - left. by apply set_value_marks.
Qed.

Lemma consistent_attach this :
  consistent this ->
  consistent (attach SpinBox this) /\ attached (attach SpinBox this).
Proof.
  intros [(Hv & Hw & Hst) Hs]. unfold attach.
  destruct (stage this) eqn:Hstage; try done.
  - destruct Hst as [Hr Hch]. unfold renderPass. simpl.
    rewrite (render_first _ _ _ Hr Hch).
    unfold wiredOnce in Hw. rewrite Hr in Hw.
    split; [|by left]. split.
    + split; [done|]. split; [unfold wiredOnce; simpl; by rewrite Hw|].
      simpl. split; [eauto|done].
    + right. by intros ? [= <-].
  - split; [|by left]. split; [|done]. split; [done|]. split; [done|].
    by rewrite Hstage.
  - split; [|by right]. split; [|done]. split; [done|]. split; [done|].
    by rewrite Hstage.
Qed.

Lemma consistent_endOfTurn this :
  consistent this ->
  consistent (endOfTurn SpinBox this)
  /\ get_value (endOfTurn SpinBox this) = get_value this
  /\ (attached this ->
      stage (endOfTurn SpinBox this) = Idle
      /\ shownText (own (endOfTurn SpinBox this))
         = Some (fieldText (get_value this))).
Proof.
  intros [(Hv & Hw & Hst) Hs]. unfold endOfTurn.
  destruct (stage this) eqn:Hstage; try done.
  - split; [|split; [done|]].
    + split; [|done]. split; [done|]. split; [done|]. by rewrite Hstage.
    + intros [?|?]; congruence.
  - destruct Hst as ([root Hr] & Hch). split; [|split; [done|]].
    + split; [|done]. split; [done|]. split; [done|].
      rewrite Hstage. eauto.
    + intros _. split; [done|]. destruct Hs as [Hs|Hs]; [set_solver|].
      unfold shownText. rewrite Hr. simpl. f_equal. by apply Hs.
  - destruct Hst as [root Hr]. unfold renderPass. simpl.
    rewrite (render_later _ _ _ _ Hr).
    destruct (bool_decide ("value" ∈ changed this)) eqn:Hch.
    + split; [|split; [done|]].
      * split.
        -- split; [done|]. split.
           ++ unfold wiredOnce in *. simpl. by rewrite Hr in Hw.
           ++ simpl. split; [eauto|done].
        -- right. by intros ? [= <-].
      * intros _. split; [done|]. done.
    + apply bool_decide_eq_false in Hch. destruct Hs as [?|Hs]; [done|].
      split; [|split; [done|]].
      * split; [|by right]. split; [done|]. split; [done|].
        simpl. split; [eauto|done].
      * intros _. split; [done|].
        unfold shownText. rewrite Hr. simpl. f_equal. by apply Hs.
Qed.

Lemma consistent_stepValue04 k this this' :
  consistent this -> outcome (stepValue k this) = Some this' ->
  consistent this'.
Proof.
  unfold stepValue, withNumber. intros Hc.
  destruct (JS.ToNumber _); [|done]. destruct (JS.add _ _); [|done].
  intros [= <-]. by apply consistent_set_value04.
Qed.

Lemma dispatch_wired t ty this root :
  based this -> shadowRoot (own this) = Some root ->
  dispatch t ty this
  = match t, ty with
    | input, inputEvent => Normal (set_value (JS.VStr (inputValue root)) this)
    | downButton, mousedownEvent => stepValue (-1) this
    | upButton, mousedownEvent => stepValue 1 this
    | _, _ => Normal this
    end.
Proof.
  intros (_ & Hw & _) Hr. unfold dispatch. rewrite Hr.
  rewrite (listenersFor_wired _ _ _ (wiredOnce_listeners _ _ Hw Hr)).
  destruct t, ty; rewrite ?runListeners_one; simpl; try done.
  by rewrite Hr.
Qed.

Lemma consistent_step04 e this this' :
  consistent this -> outcome (step e this) = Some this' -> consistent this'.
Proof.
  intros Hc Ho. pose proof Hc as [Hb Hs].
  destruct e; unfold step in Ho; simpl in Ho.
  - injection Ho as <-. by apply consistent_attach.
  - done.
  - destruct (bool_decide _); [|by injection Ho as <-].
    unfold attributeChangedCallback, withNumber in Ho.
    destruct (bool_decide _); [|by injection Ho as <-].
    destruct (JS.parseInt _); [|done].
    injection Ho as <-. by apply consistent_set_value04.
  - injection Ho as <-. by apply consistent_set_value04.
  - destruct (shadowRoot (own this)) as [root|] eqn:Hr;
      [|by injection Ho as <-].
    unfold dispatch in Ho. simpl in Ho.
    rewrite (listenersFor_wired _ _ (typeText text root)) in Ho
      by (destruct Hb as (_ & Hw & _); apply (wiredOnce_listeners _ _ Hw Hr)).
    rewrite runListeners_one in Ho. simpl in Ho.
    injection Ho as <-. by apply consistent_typed.
  - destruct (shadowRoot (own this)) as [root|] eqn:Hr.
    + rewrite (dispatch_wired _ _ _ _ Hb Hr) in Ho.
      destruct t; try (by injection Ho as <-);
        by eapply consistent_stepValue04.
    + unfold dispatch in Ho. rewrite Hr in Ho. by injection Ho as <-.
  - injection Ho as <-. by apply consistent_endOfTurn.
Qed.

Lemma consistent_constructor04 : consistent constructor.
Proof.
  split; [|right; by intros ? [=]].
  split; [by eexists|]. split; [done|]. simpl. split; [done|].
  by vm_compute.
Qed.

Lemma consistent_run04 es this :
  run step es constructor = Some this -> consistent this.
Proof.
  apply (run_preserves consistent step consistent_step04).
  apply consistent_constructor04.
Qed.

Lemma connected_attached04 es this this' :
  consistent this -> run step es this = Some this' ->
  attached this \/ Connected ∈ es -> attached this'.
Proof.
  revert this. induction es as [|e es IH]; intros this Hc; simpl.
  - intros [= <-] [?|[]%elem_of_nil]. done.
  - destruct (outcome (step e this)) as [b|] eqn:Hb; [|done].
    intros Hrun Hin. apply (IH b); [by eapply consistent_step04|done|].
    destruct Hin as [Ha|[<-|Hin]%elem_of_cons].
    + left. by eapply attached_step.
    + left. unfold step in Hb. simpl in Hb. injection Hb as <-.
      by apply consistent_attach.
    + by right.
Qed.

End Example04Facts.

(** ** Coalescing and idempotence at work *)

Section ReactiveClaims.
Import DOM ReactiveState ReactiveSpinBox.



Lemma first_render_flag_witness :
  exists this,
    run Example04.step
      [Connected; PropertySet (JS.VNum (JS.Int 7)); EndOfTurn;
       MouseDown upButton; EndOfTurn] Example04.constructor = Some this
    /\ length (passes this) = 3%nat
    /\ (firstRender <$> passes (attach Example04.SpinBox Example04.constructor))
       = [true]
    /\ match passes this with
       | [] => stage this = Unattached
       | p :: ps =>
           firstRender p = true /\ Forall (fun q => firstRender q = false) ps
       end.
Proof.
  eexists. split; [by vm_compute|]. split; [by vm_compute|].
  apply (first_render_flag Example04.SpinBox createElement
    [Connected; PropertySet (JS.VNum (JS.Int 7)); EndOfTurn;
     MouseDown upButton; EndOfTurn]).
  by vm_compute.
Defined.

End ReactiveClaims.

(** ** The widgets *)

Section WidgetClaims.
Import DOM ReactiveState.

Lemma settle04 v this :
  Example04.consistent this -> attached this ->
  let this' := endOfTurn Example04.SpinBox (ReactiveSpinBox.set_value v this) in
  ReactiveSpinBox.get_value this' = v
  /\ shownText (own this') = Some (fieldText v)
  /\ Example04.consistent this'
  /\ stage this' = Idle.
Proof.
  intros Hc Ha. simpl.
  pose proof (consistent_set_value04 v this Hc) as Hc'.
  assert (attached (ReactiveSpinBox.set_value v this)) as Ha'
    by by apply update_attached.
  destruct (consistent_endOfTurn _ Hc') as (Hc'' & Hv & Hshown).
  destruct (Hshown Ha') as [Hidle Htext].
  rewrite Hv, Htext, get_value_set_value. split; [done|]. split; [done|].
  by split.
Qed.

Lemma attribute04 s n this :
  JS.parseInt (JS.VStr s) = Some n ->
  Example04.step (AttributeSet "value" (Some s)) this
  = Normal (ReactiveSpinBox.set_value (JS.VNum n) this).
Proof.
  intros Hn. unfold Example04.step. simpl.
  unfold ReactiveSpinBox.attributeChangedCallback. simpl. by rewrite Hn.
Qed.

Lemma attribute_settles04 s n this :
  JS.parseInt (JS.VStr s) = Some n ->
  Example04.consistent this -> attached this ->
  exists this',
    run Example04.step [AttributeSet "value" (Some s); EndOfTurn] this
    = Some this'
    /\ ReactiveSpinBox.get_value this' = JS.VNum n
    /\ shownText (own this') = Some (stripNewlines (JS.numberToString n)).
Proof.
  intros Hn Hc Ha. eexists. split.
  - cbn [run]. rewrite (attribute04 _ _ _ Hn). reflexivity.
  - destruct (settle04 (JS.VNum n) this Hc Ha) as (? & ? & _). by split.
Qed.

(** The attribute of an element that may not be attached yet, as when it
    is given in the markup: the first pass, or the pass that ends the turn,
    shows it. *)
Lemma attribute_then_connect04 s n this :
  JS.parseInt (JS.VStr s) = Some n ->
  Example04.consistent this ->
  exists this',
    run Example04.step
      [AttributeSet "value" (Some s); Connected; EndOfTurn] this
    = Some this'
    /\ ReactiveSpinBox.get_value this' = JS.VNum n
    /\ shownText (own this') = Some (stripNewlines (JS.numberToString n)).
Proof.
  intros Hn Hc. eexists. split.
  - cbn [run]. rewrite (attribute04 _ _ _ Hn). reflexivity.
  - pose proof (consistent_set_value04 (JS.VNum n) this Hc) as Hc'.
    destruct (consistent_attach _ Hc') as [Hc'' Ha].
    destruct (consistent_endOfTurn _ Hc'') as (_ & Hv & Hshown).
    destruct (Hshown Ha) as [_ Htext].
    assert (ReactiveSpinBox.get_value
              (attach Example04.SpinBox
                 (ReactiveSpinBox.set_value (JS.VNum n) this))
            = JS.VNum n) as Hattach.
    { unfold ReactiveSpinBox.get_value. rewrite attach_current.
      apply get_value_set_value. }
    rewrite Hv, Htext, Hattach. by split.
Qed.

Lemma current_value this v :
  Example04.consistent this -> ReactiveSpinBox.get_value this = v ->
  current this !! "value" = Some v.
Proof.
  intros [([w Hw] & _) _]. unfold ReactiveSpinBox.get_value,
    ReactiveSpinBox.stateValue. rewrite Hw. by intros <-.
Qed.

Lemma press04 t k n m this :
  (t = downButton /\ k = -1 \/ t = upButton /\ k = 1) ->
  Example04.consistent this -> is_Some (shadowRoot (own this)) ->
  JS.ToNumber (ReactiveSpinBox.get_value this) = Some n ->
  JS.add n k = Some m ->
  Example04.step (MouseDown t) this
  = Normal (ReactiveSpinBox.set_value (JS.VNum m) this).
Proof.
  intros Ht [Hb _] [root Hr] Hn Hm. unfold Example04.step. simpl.
  rewrite (dispatch_wired _ _ _ _ Hb Hr).
  destruct Ht as [[-> ->]|[-> ->]]; unfold ReactiveSpinBox.stepValue;
    rewrite Hn; simpl; by rewrite Hm.
Qed.

Lemma attached_root this :
  Example04.consistent this -> attached this ->
  is_Some (shadowRoot (own this)).
Proof.
  intros [(_ & _ & Hst) _] [Hs|Hs]; rewrite Hs in Hst; tauto.
Qed.

Lemma press_settles04 t k n m this :
  (t = downButton /\ k = -1 \/ t = upButton /\ k = 1) ->
  Example04.consistent this -> attached this ->
  JS.ToNumber (ReactiveSpinBox.get_value this) = Some n ->
  JS.add n k = Some m ->
  exists this',
    run Example04.step [MouseDown t; EndOfTurn] this = Some this'
    /\ ReactiveSpinBox.get_value this' = JS.VNum m
    /\ shownText (own this') = Some (stripNewlines (JS.numberToString m)).
Proof.
  intros Ht Hc Ha Hn Hm. eexists. split.
  - cbn [run].
    rewrite (press04 _ _ _ _ _ Ht Hc (attached_root _ Hc Ha) Hn Hm).
    reflexivity.
  - destruct (settle04 (JS.VNum m) this Hc Ha) as (? & ? & _). by split.
Qed.

(** Once the value is NaN, a press leaves the element as it is. *)
Lemma press_nan04 t this :
  Example04.consistent this ->
  ReactiveSpinBox.get_value this = JS.VNum JS.NaN ->
  Example04.step (MouseDown t) this = Normal this.
Proof.
  intros Hc Hv. pose proof (current_value _ _ Hc Hv) as Hcur.
  unfold Example04.step. simpl.
  destruct (shadowRoot (own this)) as [root|] eqn:Hr.
  - destruct Hc as [Hb _]. rewrite (dispatch_wired _ _ _ _ Hb Hr).
    destruct t; try done; unfold ReactiveSpinBox.stepValue; rewrite Hv; simpl;
      by rewrite set_value_same.
  - unfold ReactiveSpinBox.dispatch. by rewrite Hr.
Qed.

Lemma presses_nan04 ts this :
  Example04.consistent this ->
  ReactiveSpinBox.get_value this = JS.VNum JS.NaN ->
  run Example04.step (MouseDown <$> ts) this = Some this.
Proof.
  intros Hc Hv. induction ts as [|t ts IH]; [done|].
  cbn [fmap list_fmap run]. by rewrite (press_nan04 _ _ Hc Hv).
Qed.

Lemma press01 t k n m this :
  (t = downButton /\ k = -1 \/ t = upButton /\ k = 1) ->
  Example01.consistent this -> is_Some (shadowRoot (Example01.element this)) ->
  JS.ToNumber (Example01.get_value this) = Some n ->
  JS.add n k = Some m ->
  exists this',
    Example01.step (MouseDown t) this = Normal this'
    /\ Example01.get_value this' = JS.VNum m
    /\ shownText (Example01.element this')
       = Some (stripNewlines (JS.numberToString m)).
Proof.
  intros Ht [Hw _] [root Hr] Hn Hm.
  rewrite (press_root this root t k n m Hr (wiredOnce_listeners _ _ Hw Hr)
             Ht Hn Hm).
  eexists. split; [done|]. by split.
Qed.

Lemma presses_nan01 ts this :
  Example01.consistent this -> is_Some (shadowRoot (Example01.element this)) ->
  Example01.get_value this = JS.VNum JS.NaN ->
  exists this',
    run Example01.step (MouseDown <$> ts) this = Some this'
    /\ Example01.get_value this' = JS.VNum JS.NaN
    /\ shownText (Example01.element this') = Some "NaN".
Proof.
  revert this. induction ts as [|t ts IH]; intros this Hc Hroot Hv.
  - exists this. split; [done|]. split; [done|].
    destruct Hroot as [root Hr]. destruct Hc as [_ Hs].
    unfold shownText. rewrite Hr. simpl. f_equal.
    rewrite (Hs _ Hr). unfold Example01.get_value in Hv. by rewrite Hv.
  - cbn [fmap list_fmap run].
    destruct (decide (t = input)) as [->|Ht].
    + assert (Example01.step (MouseDown input) this = Normal this) as ->.
      { destruct Hroot as [root Hr]. destruct Hc as [Hw _]. simpl.
        unfold Example01.dispatch. rewrite Hr.
        by rewrite (listenersFor_wired _ _ _ (wiredOnce_listeners _ _ Hw Hr)). }
      by apply IH.
    + destruct (press01 t (if decide (t = downButton) then -1 else 1)
                  JS.NaN JS.NaN this) as (b & Hb & Hvb & _); try done.
      { destruct t; try done; [by right|by left]. }
      { by rewrite Hv. }
      rewrite Hb. simpl.
      destruct (consistent_step (MouseDown t) this b Hc) as [Hcb Hrb];
        [by rewrite Hb|].
      apply IH; [done| |done]. apply Hrb. by left.
Qed.

End WidgetClaims.

(** ** The claims about the widgets *)

Section SpinBoxClaims.
Import DOM ReactiveState.

(** C4, as amended. The [value] property of a spin box holds whatever was
    written last. Reading returns the stored value, in example 4 the [value]
    field of the current snapshot. A property set stores the given value as
    it is; an attribute change stores what [parseInt] reads from the
    attribute text, an integer or NaN; an edit of the field stores the text
    of the field, a string, with no integer coercion. No path validates the
    value in any other way. *)
Theorem value_write_paths :
  (forall es this,
     run Example04.step es Example04.constructor = Some this ->
     (exists v, current this !! "value" = Some v
                /\ ReactiveSpinBox.get_value this = v)
     /\ (forall v, exists this',
           Example04.step (PropertySet v) this = Normal this'
           /\ ReactiveSpinBox.get_value this' = v)
     /\ (forall newValue n,
           JS.parseInt (attributeText newValue) = Some n ->
           exists this',
             Example04.step (AttributeSet "value" newValue) this = Normal this'
             /\ ReactiveSpinBox.get_value this' = JS.VNum n)
     /\ (forall text,
           is_Some (shadowRoot (own this)) ->
           exists this',
             Example04.step (UserEdit text) this = Normal this'
             /\ ReactiveSpinBox.get_value this' = JS.VStr (stripNewlines text)))
  /\ (forall es this,
        run Example01.step es Example01.constructor = Some this ->
        Connected ∈ es ->
        (forall v, exists this',
           Example01.step (PropertySet v) this = Normal this'
           /\ Example01.get_value this' = v)
        /\ (forall newValue n,
              JS.parseInt (attributeText newValue) = Some n ->
              exists this',
                Example01.step (AttributeSet "value" newValue) this
                = Normal this'
                /\ Example01.get_value this' = JS.VNum n)
        /\ (forall text, exists this',
              Example01.step (UserEdit text) this = Normal this'
              /\ Example01.get_value this' = JS.VStr (stripNewlines text))).
Proof.
  split.
  - intros es this Hrun. pose proof (consistent_run04 es this Hrun) as Hc.
    split; [|split; [|split]].
    + destruct Hc as [([v Hv] & _) _]. exists v. split; [done|].
      unfold ReactiveSpinBox.get_value, ReactiveSpinBox.stateValue.
      by rewrite Hv.
    + intros v. eexists. split; [done|]. apply get_value_set_value.
    + intros newValue n Hn. eexists. split.
      * unfold Example04.step. simpl.
        unfold ReactiveSpinBox.attributeChangedCallback. simpl.
        by rewrite Hn.
      * apply get_value_set_value.
    + intros text [root Hr]. destruct Hc as [(_ & Hw & _) _].
      eexists. split.
      * unfold Example04.step. simpl. rewrite Hr.
        unfold ReactiveSpinBox.dispatch. simpl.
        rewrite (listenersFor_wired _ _ (typeText text root))
          by apply (wiredOnce_listeners _ _ Hw Hr).
        rewrite runListeners_one. simpl. done.
      * apply get_value_set_value.
  - intros es this Hrun Hin.
    destruct (connected_root es this Hrun Hin) as (root & Hr & Hl).
    split; [|split].
    + intros v. simpl. rewrite (set_value_root _ _ _ Hr). by eexists.
    + intros newValue n Hn. rewrite (attribute_root _ _ _ _ Hr Hn).
      by eexists.
    + intros text. simpl. rewrite Hr. unfold Example01.dispatch. simpl.
      rewrite (listenersFor_wired _ _ (typeText text root)) by done.
      rewrite runListeners_one. simpl. by eexists.
Qed.

(** C5. On an element that was connected, setting the [value] attribute to
    "5" makes the property read 5 and the field show "5"; setting it to
    "abc" makes the property read NaN and the field show "NaN"; and from NaN
    any presses of the buttons leave the property at NaN and the field at
    "NaN". In example 1 the field is rewritten by the write itself, in
    example 4 by the render pass that ends the turn; an element of example 4
    that receives the attribute before it is connected shows it from its
    first pass on. *)
Theorem attribute_propagation :
  (forall es this,
     run Example01.step es Example01.constructor = Some this ->
     Connected ∈ es ->
     (exists this',
        Example01.step (AttributeSet "value" (Some "5")) this = Normal this'
        /\ Example01.get_value this' = JS.VNum (JS.Int 5)
        /\ shownText (Example01.element this') = Some "5")
     /\ (exists this',
           Example01.step (AttributeSet "value" (Some "abc")) this = Normal this'
           /\ Example01.get_value this' = JS.VNum JS.NaN
           /\ shownText (Example01.element this') = Some "NaN")
     /\ (Example01.get_value this = JS.VNum JS.NaN ->
         forall ts, exists this',
           run Example01.step (MouseDown <$> ts) this = Some this'
           /\ Example01.get_value this' = JS.VNum JS.NaN
           /\ shownText (Example01.element this') = Some "NaN"))
  /\ (forall es this,
        run Example04.step es Example04.constructor = Some this ->
        attached this ->
        (exists this',
           run Example04.step [AttributeSet "value" (Some "5"); EndOfTurn] this
           = Some this'
           /\ ReactiveSpinBox.get_value this' = JS.VNum (JS.Int 5)
           /\ shownText (own this') = Some "5")
        /\ (exists this',
              run Example04.step
                [AttributeSet "value" (Some "abc"); EndOfTurn] this
              = Some this'
              /\ ReactiveSpinBox.get_value this' = JS.VNum JS.NaN
              /\ shownText (own this') = Some "NaN")
        /\ (ReactiveSpinBox.get_value this = JS.VNum JS.NaN ->
            forall ts, exists this',
              run Example04.step ((MouseDown <$> ts) ++ [EndOfTurn]) this
              = Some this'
              /\ ReactiveSpinBox.get_value this' = JS.VNum JS.NaN
              /\ shownText (own this') = Some "NaN"))
  /\ (forall es this,
        run Example04.step es Example04.constructor = Some this ->
        (exists this',
           run Example04.step
             [AttributeSet "value" (Some "5"); Connected; EndOfTurn] this
           = Some this'
           /\ ReactiveSpinBox.get_value this' = JS.VNum (JS.Int 5)
           /\ shownText (own this') = Some "5")
        /\ (exists this',
              run Example04.step
                [AttributeSet "value" (Some "abc"); Connected; EndOfTurn] this
              = Some this'
              /\ ReactiveSpinBox.get_value this' = JS.VNum JS.NaN
              /\ shownText (own this') = Some "NaN")).
Proof.
  split; [|split].
  - intros es this Hrun Hin.
    destruct (connected_root es this Hrun Hin) as (root & Hr & Hl).
    destruct (consistent_run es _ _ consistent_constructor Hrun) as [Hc _].
    split; [|split].
    + rewrite (attribute_root this root (Some "5") (JS.Int 5) Hr eq_refl).
      eexists. split; [done|]. by split.
    + rewrite (attribute_root this root (Some "abc") JS.NaN Hr eq_refl).
      eexists. split; [done|]. by split.
    + intros Hv ts. apply presses_nan01; eauto.
  - intros es this Hrun Ha.
    pose proof (consistent_run04 es this Hrun) as Hc.
    split; [|split].
    + by apply (attribute_settles04 "5" (JS.Int 5)).
    + by apply (attribute_settles04 "abc" JS.NaN).
    + intros Hv ts. rewrite run_app, (presses_nan04 ts this Hc Hv). simpl.
      exists (endOfTurn Example04.SpinBox this). split; [done|].
      destruct (consistent_endOfTurn this Hc) as (_ & Hv' & Hshown).
      destruct (Hshown Ha) as [_ Htext].
      rewrite Hv', Htext, Hv. by split.
  - intros es this Hrun.
    pose proof (consistent_run04 es this Hrun) as Hc.
    split.
    + by apply (attribute_then_connect04 "5" (JS.Int 5)).
    + by apply (attribute_then_connect04 "abc" JS.NaN).
Qed.

(** C6. On an element that was connected and whose value is 0, one press of
    the decrement button yields the value -1 and the field text "-1", and
    one press of the increment button yields the value 1 and the field text
    "1". In example 1 the field is rewritten by the press itself, in
    example 4 by the render pass that ends the turn. *)
Theorem one_unit_step :
  (forall es this,
     run Example01.step es Example01.constructor = Some this ->
     Connected ∈ es ->
     Example01.get_value this = JS.VNum (JS.Int 0) ->
     (exists this',
        Example01.step (MouseDown downButton) this = Normal this'
        /\ Example01.get_value this' = JS.VNum (JS.Int (-1))
        /\ shownText (Example01.element this') = Some "-1")
     /\ (exists this',
           Example01.step (MouseDown upButton) this = Normal this'
           /\ Example01.get_value this' = JS.VNum (JS.Int 1)
           /\ shownText (Example01.element this') = Some "1"))
  /\ (forall es this,
        run Example04.step es Example04.constructor = Some this ->
        attached this ->
        ReactiveSpinBox.get_value this = JS.VNum (JS.Int 0) ->
        (exists this',
           run Example04.step [MouseDown downButton; EndOfTurn] this
           = Some this'
           /\ ReactiveSpinBox.get_value this' = JS.VNum (JS.Int (-1))
           /\ shownText (own this') = Some "-1")
        /\ (exists this',
              run Example04.step [MouseDown upButton; EndOfTurn] this
              = Some this'
              /\ ReactiveSpinBox.get_value this' = JS.VNum (JS.Int 1)
              /\ shownText (own this') = Some "1")).
Proof.
  split.
  - intros es this Hrun Hin Hv.
    destruct (connected_root es this Hrun Hin) as (root & Hr & Hl).
    destruct (consistent_run es _ _ consistent_constructor Hrun) as [Hc _].
    split.
    + apply (press01 downButton (-1) (JS.Int 0) (JS.Int (-1))); eauto.
      by rewrite Hv.
    + apply (press01 upButton 1 (JS.Int 0) (JS.Int 1)); eauto.
      by rewrite Hv.
  - intros es this Hrun Ha Hv.
    pose proof (consistent_run04 es this Hrun) as Hc.
    split.
    + apply (press_settles04 downButton (-1) (JS.Int 0) (JS.Int (-1))); eauto.
      by rewrite Hv.
    + apply (press_settles04 upButton 1 (JS.Int 0) (JS.Int 1)); eauto.
      by rewrite Hv.
Qed.

(** C7. However an element is attached, detached and attached again, its
    template is cloned once and its three listeners are attached once, on
    the first activation: in every run of example 1 and of example 3 an
    element without a shadow root has cloned nothing, and an element with one
    has cloned the template once and carries each listener once; after a
    [connectedCallback] the shadow root is there. The same holds in the runs
    of example 4, and there a render pass other than the first, on an element
    that has its shadow root, clones nothing and attaches nothing. *)
Theorem template_reuse :
  (forall es this,
     run Example01.step es Example01.constructor = Some this ->
     wiredOnce (Example01.element this)
     /\ (Connected ∈ es -> is_Some (shadowRoot (Example01.element this))))
  /\ (forall es this,
        run Example03.step es Example03.constructor = Some this ->
        wiredOnce (Example03.element this)
        /\ (Connected ∈ es -> is_Some (shadowRoot (Example03.element this))))
  /\ (forall es this,
        run Example04.step es Example04.constructor = Some this ->
        wiredOnce (own this)
        /\ (Connected ∈ es -> is_Some (shadowRoot (own this))))
  /\ (forall changed state this root,
        shadowRoot this = Some root ->
        imports (Example04.render changed state false this) = imports this
        /\ (listeners <$> shadowRoot (Example04.render changed state false this))
           = Some (listeners root)).
Proof.
  split; [|split; [|split]].
  - intros es this Hrun.
    destruct (consistent_run es _ _ consistent_constructor Hrun) as [[Hw _] Hr].
    split; [done|]. intros Hin. apply Hr. by right.
  - intros es this Hrun.
    destruct (consistent_run03 es _ _ consistent_constructor03 Hrun)
      as [[Hw _] Hr].
    split; [done|]. intros Hin. apply Hr. by right.
  - intros es this Hrun.
    pose proof (consistent_run04 es this Hrun) as Hc.
    split; [by destruct Hc as [(_ & Hw & _) _]|].
    intros Hin. apply attached_root; [done|].
    apply (connected_attached04 es _ _ consistent_constructor04 Hrun).
    by right.
  - intros changed state this root Hr. rewrite (render_later _ _ _ _ Hr).
    destruct (bool_decide _); simpl; by rewrite ?Hr.
Qed.

End SpinBoxClaims.

(** ** The themed spin box and the writes that always render *)

Section ThemedClaims.
Import DOM ReactiveState.

Lemma render04_style changed state first this :
  borderColor (Example04.render changed state first this) = borderColor this
  /\ backgroundColor (Example04.render changed state first this)
     = backgroundColor this.
Proof.
  unfold Example04.render. destruct this as [[root|] b g i w], first;
    simpl; by destruct (bool_decide _).
Qed.






End ThemedClaims.

(** C4, the claim as stated fails: after the user typed "abc" into the field
    of a connected spin box, of example 4 or of example 1, the [value]
    property holds the string "abc", which is neither an integer nor NaN. *)
Lemma edited_value_is_text :
  (ReactiveSpinBox.get_value <$>
     DOM.run Example04.step
       [DOM.Connected; DOM.UserEdit "abc"; DOM.EndOfTurn]
       Example04.constructor) = Some (JS.VStr "abc")
  /\ (Example01.get_value <$>
        DOM.run Example01.step [DOM.Connected; DOM.UserEdit "abc"]
          Example01.constructor) = Some (JS.VStr "abc")
  /\ (forall n, JS.VStr "abc" ≠ JS.VNum n).
Proof. split; [by vm_compute|]. split; [by vm_compute|done]. Qed.


(** C10, where the code departs from the claim: on a new element of
    example 1 the write of its current value, 0, stores the value and then
    throws on the missing shadow root; the render statement does not
    complete and no field is rewritten. [connectedCallback] guards the same
    access and renders on that element, and the setter of example 3 renders
    on a new element. *)
Lemma write_without_root_renders_nothing :
  Example01.set_value (Example01.get_value Example01.constructor)
    Example01.constructor = Throw Example01.constructor
  /\ DOM.shownText (Example01.element Example01.constructor) = None
  /\ DOM.writes (Example01.element Example01.constructor) = 0%nat
  /\ (DOM.shownText ∘ Example01.element <$>
        outcome (Example01.connectedCallback Example01.constructor))
     = Some (Some "0")
  /\ DOM.shownText
       (Example03.element
          (Example03.set_value (Example03.get_value Example03.constructor)
             Example03.constructor)) = Some "0".
Proof. by repeat split. Qed.

(** ** The hypotheses of the theorems are met *)

Section Witnesses.
Import DOM ReactiveState.

Lemma value_write_paths_witness :
  let this1 :=
    default Example01.constructor
      (run Example01.step [Connected] Example01.constructor) in
  exists this4 this4' this1',
    run Example04.step [Connected] Example04.constructor = Some this4
    /\ Example04.step (UserEdit "12") this4 = Normal this4'
    /\ ReactiveSpinBox.get_value this4' = JS.VStr "12"
    /\ Example01.step (UserEdit "12") this1 = Normal this1'
    /\ Example01.get_value this1' = JS.VStr "12".
Proof.
  intros this1. destruct value_write_paths as [H4 H1].
  exists (attach Example04.SpinBox Example04.constructor).
  destruct (H4 [Connected]
              (attach Example04.SpinBox Example04.constructor) eq_refl)
    as (_ & _ & _ & Hedit).
  destruct (Hedit "12") as (this4' & Hstep & Hv).
  { vm_compute. by eexists. }
  destruct (H1 [Connected] this1 eq_refl) as (_ & _ & Hedit1); [by left|].
  destruct (Hedit1 "12") as (this1' & Hstep1 & Hv1).
  exists this4', this1'. by repeat split.
Defined.

Lemma attribute_propagation_witness :
  exists this1 this1' this4 this4',
    run Example01.step [Connected] Example01.constructor = Some this1
    /\ Example01.step (AttributeSet "value" (Some "5")) this1 = Normal this1'
    /\ shownText (Example01.element this1') = Some "5"
    /\ run Example04.step [Connected] Example04.constructor = Some this4
    /\ run Example04.step [AttributeSet "value" (Some "abc"); EndOfTurn] this4
       = Some this4'
    /\ shownText (own this4') = Some "NaN".
Proof.
  destruct attribute_propagation as (H1 & H4 & _).
  destruct (Example01.step Connected Example01.constructor) as [this1| |]
    eqn:Hconnect; try discriminate Hconnect.
  assert (run Example01.step [Connected] Example01.constructor = Some this1)
    as Hrun1 by (cbn [run]; by rewrite Hconnect).
  destruct (H1 [Connected] this1 Hrun1) as ((this1' & ? & ? & ?) & _).
  { by left. }
  destruct (H4 [Connected] (attach Example04.SpinBox Example04.constructor)
              eq_refl) as (_ & (this4' & ? & ? & ?) & _).
  { by left. }
  exists this1, this1', (attach Example04.SpinBox Example04.constructor), this4'.
  by repeat split.
Defined.

Lemma one_unit_step_witness :
  exists this1 this1' this4 this4',
    run Example01.step [Connected] Example01.constructor = Some this1
    /\ Example01.step (MouseDown downButton) this1 = Normal this1'
    /\ shownText (Example01.element this1') = Some "-1"
    /\ run Example04.step [Connected] Example04.constructor = Some this4
    /\ run Example04.step [MouseDown upButton; EndOfTurn] this4 = Some this4'
    /\ shownText (own this4') = Some "1".
Proof.
  destruct one_unit_step as [H1 H4].
  destruct (Example01.step Connected Example01.constructor) as [this1| |]
    eqn:Hconnect; try discriminate Hconnect.
  assert (run Example01.step [Connected] Example01.constructor = Some this1)
    as Hrun1 by (cbn [run]; by rewrite Hconnect).
  destruct (H1 [Connected] this1 Hrun1) as ((this1' & ? & ? & ?) & _).
  { by left. }
  { vm_compute in Hconnect. by injection Hconnect as <-. }
  destruct (H4 [Connected] (attach Example04.SpinBox Example04.constructor)
              eq_refl) as (_ & (this4' & ? & ? & ?)).
  { by left. }
  { by vm_compute. }
  exists this1, this1', (attach Example04.SpinBox Example04.constructor), this4'.
  by repeat split.
Defined.

Lemma template_reuse_witness :
  exists this1 this3 this4,
    run Example01.step [Connected; Disconnected; Connected]
      Example01.constructor = Some this1
    /\ wiredOnce (Example01.element this1)
    /\ is_Some (shadowRoot (Example01.element this1))
    /\ run Example03.step [Connected; Disconnected; Connected]
         Example03.constructor = Some this3
    /\ wiredOnce (Example03.element this3)
    /\ is_Some (shadowRoot (Example03.element this3))
    /\ run Example04.step [Connected; Connected] Example04.constructor
       = Some this4
    /\ wiredOnce (own this4)
    /\ is_Some (shadowRoot (own this4)).
Proof.
  destruct template_reuse as (H1 & H3 & H4 & _).
  destruct (run Example01.step [Connected; Disconnected; Connected]
              Example01.constructor) as [this1|] eqn:Hrun1;
    [|by vm_compute in Hrun1].
  destruct (run Example03.step [Connected; Disconnected; Connected]
              Example03.constructor) as [this3|] eqn:Hrun3;
    [|by vm_compute in Hrun3].
  destruct (run Example04.step [Connected; Connected] Example04.constructor)
    as [this4|] eqn:Hrun4; [|by vm_compute in Hrun4].
  destruct (H1 _ _ Hrun1) as [? Hroot1].
  destruct (H3 _ _ Hrun3) as [? Hroot3].
  destruct (H4 _ _ Hrun4) as [? Hroot4].
  exists this1, this3, this4.
  repeat split; try done; [apply Hroot1|apply Hroot3|apply Hroot4]; by left.
Defined.




End Witnesses.

(** * Further properties of the examples *)

(** ** The decimal text of a number *)

Section TextFacts.
Import JS DOM.

Lemma stripNewlines_digits s : allDigits s = true -> stripNewlines s = s.
Proof.
  induction s as [|c s IH]; [done|]. simpl.
  intros [Hc Hs]%andb_true_iff. apply bool_decide_eq_true in Hc as [d Hd].
  rewrite IH by done. apply decimalDigit_cases in Hd.
  repeat (apply elem_of_cons in Hd as [->|Hd]; [done|]).
  by apply elem_of_nil in Hd.
Qed.

Lemma printN_digits n : allDigits (printN n) = true.
Proof. by apply allDigits_printDigits. Qed.

(** The text of a number has no line break: the field shows it as it
    is. *)
Lemma stripNewlines_app s t :
  stripNewlines (String.append s t)
  = String.append (stripNewlines s) (stripNewlines t).
Proof.
  induction s as [|c s IH]; [done|]. simpl.
  destruct (bool_decide (c = "010"%char) || bool_decide (c = "013"%char));
    [done|].
  simpl. by rewrite IH.
Qed.

Lemma stripNewlines_printFrac a e :
  stripNewlines (printFrac a e) = printFrac a e.
Proof.
  unfold printFrac. rewrite stripNewlines_app.
  rewrite stripNewlines_digits by apply printN_digits.
  f_equal.
  change (stripNewlines (String "." ?r)) with (String "." (stripNewlines r)).
  f_equal. apply stripNewlines_digits. by apply allDigits_printFixed.
Qed.

Lemma stripNewlines_numberToString n :
  stripNewlines (numberToString n) = numberToString n.
Proof.
  destruct n as [z|m e H|]; [| |done]; unfold numberToString.
  - destruct (z <? 0)%Z.
    + change (stripNewlines (String "-" (printN (Z.abs_N z))))
        with (String "-" (stripNewlines (printN (Z.abs_N z)))).
      by rewrite stripNewlines_digits by apply printN_digits.
    + apply stripNewlines_digits, printN_digits.
  - destruct (m <? 0)%Z.
    + change (stripNewlines (String "-" (printFrac (Z.abs_N m) e)))
        with (String "-" (stripNewlines (printFrac (Z.abs_N m) e))).
      by rewrite stripNewlines_printFrac.
    + apply stripNewlines_printFrac.
Qed.

(** A number is shown as its text. *)
Lemma fieldText_number n : fieldText (JS.VNum n) = numberToString n.
Proof. apply stripNewlines_numberToString. Qed.

End TextFacts.

(** ** Example 1, over whole runs *)

Section Example01Runs.
Import DOM Example01 Observation.
Implicit Types (this : SpinBox) (v : JS.value).

Lemma toDouble_exact z :
  Z.abs z <= JS.maxExact -> JS.toDouble (JS.Int z) = Some (JS.Int z).
Proof. intros Hz. unfold JS.toDouble. by rewrite (proj2 (Z.leb_le _ _) Hz). Qed.

Lemma stepOf_bound t : Z.abs (stepOf t) <= 1.
Proof. destruct t; simpl; lia. Qed.

Lemma shownText_consistent this :
  consistent this -> is_Some (shadowRoot (element this)) ->
  shownText (element this) = Some (fieldText (_value this)).
Proof.
  intros [_ Hs] [root Hr]. unfold shownText. rewrite Hr. simpl. f_equal.
  by apply Hs.
Qed.

Lemma mousedown_input01 this :
  consistent this -> step (MouseDown input) this = Normal this.
Proof.
  intros [Hw _]. simpl. unfold dispatch.
  destruct (shadowRoot (element this)) as [root|] eqn:Hr; [|done].
  by rewrite (listenersFor_wired _ _ _ (wiredOnce_listeners _ _ Hw Hr)).
Qed.

Lemma press_int01 t z this :
  consistent this -> is_Some (shadowRoot (element this)) ->
  get_value this = JS.VNum (JS.Int z) ->
  Z.abs (z + stepOf t) <= JS.maxExact ->
  exists this',
    step (MouseDown t) this = Normal this'
    /\ get_value this' = JS.VNum (JS.Int (z + stepOf t))
    /\ consistent this'
    /\ is_Some (shadowRoot (element this')).
Proof.
  intros Hc Hroot Hv Hz.
  destruct (decide (t = input)) as [->|Ht].
  - exists this. rewrite (mousedown_input01 _ Hc). simpl.
    by rewrite Z.add_0_r.
  - pose proof Hc as [Hw _]. destruct Hroot as [root Hr].
    assert (step (MouseDown t) this
            = Normal {| _value := JS.VNum (JS.Int (z + stepOf t));
                        element := countWrite
                          (withShadowRoot
                             (setInputValue
                                (JS.VNum (JS.Int (z + stepOf t))) root)
                             (element this)) |}) as Hstep.
    { apply (press_root this root t (stepOf t) (JS.Int z)); try done.
      - by apply (wiredOnce_listeners _ _ Hw).
      - destruct t; try done; [by right|by left].
      - unfold get_value in Hv. by rewrite Hv.
      - simpl. by apply toDouble_exact. }
    rewrite Hstep. eexists. split; [done|]. split; [done|].
    destruct (consistent_step (MouseDown t) this _ Hc (f_equal outcome Hstep))
      as [Hc' Hroot'].
    split; [done|]. apply Hroot'. left. eauto.
Qed.

Lemma presses_int01 ts : forall z this,
  consistent this -> is_Some (shadowRoot (element this)) ->
  get_value this = JS.VNum (JS.Int z) ->
  Z.abs z + Z.of_nat (length ts) <= JS.maxExact ->
  exists this',
    run step (MouseDown <$> ts) this = Some this'
    /\ get_value this' = JS.VNum (JS.Int (z + net ts))
    /\ consistent this'
    /\ is_Some (shadowRoot (element this')).
Proof.
  induction ts as [|t ts IH]; intros z this Hc Hroot Hv Hz.
  - exists this. simpl. by rewrite Z.add_0_r.
  - pose proof (stepOf_bound t) as Ht. simpl in Hz.
    destruct (press_int01 t z this Hc Hroot Hv) as (b & Hb & Hvb & Hcb & Hrb);
      [lia|].
    destruct (IH (z + stepOf t) b Hcb Hrb Hvb) as (c & Hrun & Hvc & Hcc & Hrc);
      [lia|].
    exists c. cbn [fmap list_fmap run]. rewrite Hb. simpl.
    split; [done|]. split; [|done].
    rewrite Hvc. simpl. fold (net ts). do 2 f_equal. lia.
Qed.


(** X2. Only a write before the first [connectedCallback] throws: once a
    [connectedCallback] has run no event of example 1 throws, and before
    it the only events that throw are the write to the property and the
    change of the [value] attribute. *)
Theorem throws_only_before_connect01 es this e :
  run step es constructor = Some this ->
  throws (step e this) = true ->
  (Connected ∉ es)
  /\ ((exists v, e = PropertySet v)
      \/ (exists newValue, e = AttributeSet "value" newValue)).
Proof.
  intros Hrun Hthrow.
  destruct (consistent_run es _ _ consistent_constructor Hrun) as [Hc Hroot].
  pose proof Hc as [Hw _].
  assert (forall v, is_Some (shadowRoot (element this)) ->
                    throws (set_value v this) = false) as Hset.
  { intros v [root Hr]. by rewrite (set_value_root _ _ _ Hr). }
  assert (forall k, is_Some (shadowRoot (element this)) ->
                    throws (stepValue k this) = false) as Hstep.
  { intros k Hr. unfold stepValue, withNumber.
    destruct (JS.ToNumber _); [|done]. destruct (JS.add _ _); [|done].
    by apply Hset. }
  assert (forall t ty, throws (dispatch t ty this) = false) as Hdispatch.
  { intros t ty. unfold dispatch.
    destruct (shadowRoot (element this)) as [root|] eqn:Hr; [|done].
    rewrite (listenersFor_wired _ _ _ (wiredOnce_listeners _ _ Hw Hr)).
    destruct t, ty; rewrite ?runListeners_one; simpl; try done;
      try (apply Hstep; eauto).
    rewrite Hr. apply Hset. eauto. }
  destruct e; simpl in Hthrow; try done.
  - destruct (consistent_connectedCallback this Hw) as (b & Hb & _).
    by rewrite Hb in Hthrow.
  - destruct (bool_decide (name ∈ observedAttributes)) eqn:Hname; [|done].
    apply bool_decide_eq_true in Hname.
    apply list_elem_of_singleton in Hname as ->.
    split; [|right; eauto].
    intros Hin. unfold attributeChangedCallback, withNumber in Hthrow.
    simpl in Hthrow. destruct (JS.parseInt _); [|done].
    rewrite Hset in Hthrow; [done|]. apply Hroot. by right.
  - split; [|left; eauto].
    intros Hin. rewrite Hset in Hthrow; [done|]. apply Hroot. by right.
  - destruct (shadowRoot (element this)) as [root|] eqn:Hr; [|done].
    unfold dispatch in Hthrow. simpl in Hthrow.
    rewrite (listenersFor_wired _ _ (typeText text root)) in Hthrow
      by apply (wiredOnce_listeners _ _ Hw Hr).
    by rewrite runListeners_one in Hthrow.
  - by rewrite Hdispatch in Hthrow.
Qed.

(** X3. Connecting an element of example 1 again (after a move in the
    document, say) neither clones the template nor adds a listener nor
    changes what the field shows: apart from the one more assignment to the
    field, the element and the value are what they were. *)
Theorem reconnect_changes_nothing01 es this :
  run step es constructor = Some this -> Connected ∈ es ->
  step Connected this
  = Normal {| _value := _value this; element := countWrite (element this) |}.
Proof.
  intros Hrun Hin.
  destruct (consistent_run es _ _ consistent_constructor Hrun) as [Hc Hroot].
  destruct (proj2 Hroot (or_intror Hin)) as [root Hr]. destruct Hc as [_ Hs].
  simpl. unfold connectedCallback, renderValue.
  rewrite bool_decide_eq_false_2 by by rewrite Hr.
  rewrite Hr. do 2 f_equal.
  destruct (element this) as [r b g i w] eqn:He. simpl in *. subst r.
  unfold countWrite, withShadowRoot, setInputValue. simpl. do 2 f_equal.
  destruct root as [text ls]. simpl. f_equal. symmetry.
  by apply (Hs {| inputValue := text; listeners := ls |}).
Qed.

(** X4. Presses add up: on a connected element of example 1 whose value is the
    integer [z], any sequence of presses on the two buttons leaves the value
    [z] plus the number of presses on the increment button minus the number
    of presses on the decrement button, and the field shows its decimal
    text (within the integers a double holds exactly). *)
Theorem presses_add_up01 es this z ts :
  run step es constructor = Some this -> Connected ∈ es ->
  get_value this = JS.VNum (JS.Int z) ->
  Z.abs z + Z.of_nat (length ts) <= JS.maxExact ->
  exists this',
    run step (MouseDown <$> ts) this = Some this'
    /\ get_value this' = JS.VNum (JS.Int (z + net ts))
    /\ shownText (element this')
       = Some (JS.numberToString (JS.Int (z + net ts))).
Proof.
  intros Hrun Hin Hv Hz.
  destruct (consistent_run es _ _ consistent_constructor Hrun) as [Hc Hroot].
  destruct (presses_int01 ts z this Hc (proj2 Hroot (or_intror Hin)) Hv Hz)
    as (b & Hb & Hvb & Hcb & Hrb).
  exists b. split; [done|]. split; [done|].
  rewrite (shownText_consistent _ Hcb Hrb).
  unfold get_value in Hvb. rewrite Hvb. by rewrite fieldText_number.
Qed.

(** X5. An edit stores the text of the field, a string; the next press
    converts it: the value is then the number the text reads as, plus or
    minus one, and the field shows that number. *)
Theorem edit_then_press01 es this text t n m :
  run step es constructor = Some this -> Connected ∈ es ->
  t ≠ input ->
  JS.ToNumber (JS.VStr (stripNewlines text)) = Some n ->
  JS.add n (stepOf t) = Some m ->
  exists this',
    run step [UserEdit text; MouseDown t] this = Some this'
    /\ get_value this' = JS.VNum m
    /\ shownText (element this') = Some (JS.numberToString m).
Proof.
  intros Hrun Hin Ht Hn Hm.
  destruct (consistent_run es _ _ consistent_constructor Hrun) as [Hc Hroot].
  destruct (proj2 Hroot (or_intror Hin)) as [root Hr]. pose proof Hc as [Hw _].
  pose proof (wiredOnce_listeners _ _ Hw Hr) as Hl.
  set (edited := {| _value := JS.VStr (stripNewlines text);
                    element := countWrite
                      (withShadowRoot
                         (setInputValue (JS.VStr (stripNewlines text))
                            (typeText text root))
                         (element this)) |}).
  assert (step (UserEdit text) this = Normal edited) as Hedit.
  { simpl. rewrite Hr. unfold dispatch. simpl.
    by rewrite listenersFor_wired, runListeners_one by done. }
  assert (step (MouseDown t) edited
          = Normal {| _value := JS.VNum m;
                      element := countWrite
                        (withShadowRoot
                           (setInputValue (JS.VNum m)
                              (setInputValue (JS.VStr (stripNewlines text))
                                 (typeText text root)))
                           (element edited)) |}) as Hpress.
  { apply (press_root edited _ t (stepOf t) n); try done.
    destruct t; try done; [by right|by left]. }
  eexists. split.
  - cbn [run]. rewrite Hedit. cbn [outcome]. rewrite Hpress. done.
  - split; [done|]. unfold shownText. simpl.
    by rewrite stripNewlines_numberToString.
Qed.

End Example01Runs.

(** ** Example 3, over whole runs, and next to example 1 *)

Section Example03Runs.
Import DOM Example03 Observation.
Implicit Types (this : SpinBox) (v : JS.value).



End Example03Runs.

Section MixinRefactoring.
Import DOM Observation.

Lemma inStep_set_value v a b :
  inStep a b ->
  inStepCompletion (Example01.set_value v a) (Normal (Example03.set_value v b)).
Proof.
  destruct a as [va ea], b as [vb eb]. intros [[= -> ->] [root Hr]].
  simpl in Hr.
  rewrite (set_value_root v
             {| Example01._value := vb; Example01.element := eb |} root Hr).
  unfold Example03.set_value. cbn [Example03.element].
  rewrite (render_root03
             {| Example03._value := v; Example03.element := eb |} root Hr).
  simpl. split; [done|]. simpl. eauto.
Qed.

Lemma inStep_stepValue k a b :
  inStep a b ->
  inStepCompletion (Example01.stepValue k a) (Example03.stepValue k b).
Proof.
  intros Hab. pose proof Hab as [[= Hv He] _].
  unfold Example01.stepValue, Example03.stepValue, withNumber,
    Example01.get_value, Example03.get_value.
  rewrite Hv. destruct (JS.ToNumber _); [|done].
  destruct (JS.add _ _); [|done]. by apply inStep_set_value.
Qed.

Lemma inStep_invoke f a b :
  inStep a b ->
  inStepCompletion (Example01.invoke f a) (Example03.invoke f b).
Proof.
  intros Hab. destruct f; simpl; try by apply inStep_stepValue.
  pose proof Hab as [[= Hv He] [root Hr]]. rewrite <- He, Hr.
  by apply inStep_set_value.
Qed.

Lemma inStep_runListeners fs : forall a b,
  inStep a b ->
  inStepCompletion (runListeners Example01.invoke fs a)
    (runListeners Example03.invoke fs b).
Proof.
  induction fs as [|f fs IH]; intros a b Hab; [done|]. simpl.
  pose proof (inStep_invoke f a b Hab) as Hf.
  destruct (Example01.invoke f a) as [a'|a'|],
    (Example03.invoke f b) as [b'|b'|]; try done.
  by apply IH.
Qed.

Lemma inStep_dispatch t ty a b :
  inStep a b ->
  inStepCompletion (Example01.dispatch t ty a) (Example03.dispatch t ty b).
Proof.
  intros Hab. pose proof Hab as [[= Hv He] [root Hr]].
  unfold Example01.dispatch, Example03.dispatch. rewrite <- He, Hr.
  by apply inStep_runListeners.
Qed.

Lemma inStep_step e a b :
  inStep a b ->
  inStepCompletion (Example01.step e a) (Example03.step e b).
Proof.
  destruct a as [va ea], b as [vb eb]. intros Hab.
  pose proof Hab as [[= -> ->] [root Hr]]. simpl in Hr.
  destruct e; cbn [Example01.step Example03.step]; try done.
  - unfold Example01.connectedCallback, Example01.renderValue,
      Example03.connectedCallback.
    rewrite (render_root03
               {| Example03._value := vb; Example03.element := eb |} root Hr).
    simpl. rewrite bool_decide_eq_false_2 by by rewrite Hr.
    simpl. rewrite Hr. split; [done|]. simpl. eauto.
  - destruct (bool_decide _); [|done].
    unfold Example01.attributeChangedCallback,
      Example03.attributeChangedCallback, withNumber.
    destruct (bool_decide _); [|done]. destruct (JS.parseInt _); [|done].
    by apply inStep_set_value.
  - by apply inStep_set_value.
  - cbn [Example01.element Example03.element Example01._value
         Example03._value]. rewrite Hr.
    apply inStep_dispatch. split; [done|]. simpl. eauto.
  - by apply inStep_dispatch.
Qed.

Lemma inStep_run es : forall a b,
  inStep a b ->
  (view01 <$> run Example01.step es a) = (view03 <$> run Example03.step es b).
Proof.
  induction es as [|e es IH]; intros a b Hab; simpl.
  - f_equal. apply Hab.
  - pose proof (inStep_step e a b Hab) as He.
    destruct (Example01.step e a) as [a'|a'|],
      (Example03.step e b) as [b'|b'|]; try done.
    by apply IH.
Qed.

(** X7. The refactoring onto ShadowTemplateMixin keeps the behaviour of a
    connected element: after a [connectedCallback] on a new element, the
    same events leave example 1 and example 3 with the same value and the
    same element (shadow root, field text, listeners, and as many clones of
    the template and assignments to the field), or leave the two runs
    unrepresented together. *)
Theorem mixin_refactoring_keeps_behaviour es :
  (view01 <$> run Example01.step (Connected :: es) Example01.constructor)
  = (view03 <$> run Example03.step (Connected :: es) Example03.constructor).
Proof.
  cbn [run Example01.step Example03.step outcome].
  destruct (consistent_connectedCallback Example01.constructor)
    as (a & Ha & _); [done|].
  rewrite Ha. cbn [outcome]. apply inStep_run.
  vm_compute in Ha. injection Ha as <-. split; [done|]. simpl. eauto.
Qed.

End MixinRefactoring.

(** ** The reactive spin boxes, over whole runs *)

Section ReactiveRuns.
Import DOM ReactiveState ReactiveSpinBox Observation.
Implicit Types (this : SpinBox) (c : Component) (v : JS.value).

Lemma writes_render04 ch st first e :
  writes (Example04.render ch st first e)
  = if bool_decide ("value" ∈ ch) then S (writes e) else writes e.
Proof.
  unfold Example04.render. destruct e as [[root|] b g i w], first;
    simpl; by destruct (bool_decide _).
Qed.

Lemma writes_render12 ch st first e :
  writes (Example12.render ch st first e)
  = if bool_decide ("value" ∈ ch) then S (writes e) else writes e.
Proof.
  unfold Example12.render, Example12.SpinBox_render.
  pose proof (writes_render04 ch st first e) as Hw.
  destruct (bool_decide _); [|done]. by rewrite <- Hw.
Qed.

Lemma marking_snoc {V : Type} (ps : list (pass V)) p :
  length (marking (ps ++ [p]))
  = if bool_decide ("value" ∈ changes p) then S (length (marking ps))
    else length (marking ps).
Proof.
  unfold marking. rewrite filter_app, length_app.
  destruct (decide ("value" ∈ changes p)) as [Hin|Hin].
  - rewrite bool_decide_eq_true_2 by done.
    rewrite filter_cons_True by done. simpl. lia.
  - rewrite bool_decide_eq_false_2 by done.
    rewrite filter_cons_False by done. simpl. lia.
Qed.

Lemma writes_render c ch st first e :
  spinBoxComponent c ->
  rendered c = None
  /\ writes (render c ch st first e)
     = if bool_decide ("value" ∈ ch) then S (writes e) else writes e.
Proof.
  intros [-> | ->]; (split; [done|]); simpl;
    [apply writes_render04|apply writes_render12].
Qed.

Lemma writes_renderPass c first this :
  spinBoxComponent c ->
  writes (own (renderPass c first this))
  = (if bool_decide ("value" ∈ changed this) then S (writes (own this))
     else writes (own this))
  /\ length (marking (passes (renderPass c first this)))
     = if bool_decide ("value" ∈ changed this)
       then S (length (marking (passes this)))
       else length (marking (passes this)).
Proof.
  intros Hc. unfold renderPass.
  destruct (writes_render c (changed this) (current this) first (own this) Hc)
    as [-> Hw].
  simpl. split; [done|]. by rewrite marking_snoc.
Qed.

Lemma accounted_update partial this :
  accounted this -> accounted (update partial this).
Proof. unfold accounted. by rewrite update_own, update_passes. Qed.

Lemma accounted_invoke f this this' :
  accounted this -> outcome (invoke f this) = Some this' -> accounted this'.
Proof.
  intros Ha. destruct f; simpl.
  - destruct (shadowRoot (own this)); intros [= <-];
      [by apply accounted_update|done].
  - unfold stepValue, withNumber.
    destruct (JS.ToNumber _); [|done]. destruct (JS.add _ _); [|done].
    intros [= <-]. by apply accounted_update.
  - unfold stepValue, withNumber.
    destruct (JS.ToNumber _); [|done]. destruct (JS.add _ _); [|done].
    intros [= <-]. by apply accounted_update.
Qed.

Lemma accounted_dispatch t ty this this' :
  accounted this -> outcome (dispatch t ty this) = Some this' ->
  accounted this'.
Proof.
  unfold dispatch. destruct (shadowRoot (own this)).
  - apply runListeners_preserves. apply accounted_invoke.
  - by intros ? [= <-].
Qed.

Lemma accounted_step c e this this' :
  spinBoxComponent c ->
  accounted this -> outcome (step c e this) = Some this' -> accounted this'.
Proof.
  intros Hc Ha. destruct e; simpl.
  - intros [= <-]. unfold attach. destruct (stage this); try done.
    unfold accounted.
    destruct (writes_renderPass c true
                {| current := current this; changed := changed this;
                   stage := FirstRenderPending; own := own this;
                   passes := passes this |} Hc) as [-> ->].
    simpl. rewrite Ha. by destruct (bool_decide _).
  - done.
  - destruct (bool_decide _); [|by intros [= <-]].
    unfold attributeChangedCallback, withNumber.
    destruct (bool_decide _); [|by intros [= <-]].
    destruct (JS.parseInt _); [|done].
    intros [= <-]. by apply accounted_update.
  - intros [= <-]. by apply accounted_update.
  - destruct (shadowRoot (own this)); [|by intros [= <-]].
    by apply accounted_dispatch.
  - by apply accounted_dispatch.
  - intros [= <-]. unfold endOfTurn. destruct (stage this); try done.
    unfold accounted. destruct (writes_renderPass c false this Hc) as [-> ->].
    rewrite Ha. by destruct (bool_decide _).
Qed.

(** X8. The field is assigned by the render passes that mark [value], once by
    each, and by nothing else: in every run of example 4 and of the themed
    spin box the assignments made to the field are as many as the passes
    whose change set held [value]. *)
Theorem field_written_by_marking_passes c es this :
  spinBoxComponent c ->
  run (step c) es (create c createElement) = Some this ->
  writes (own this) = length (marking (passes this)).
Proof.
  intros Hc. apply (run_preserves accounted (step c)).
  - intros e a a'. by apply accounted_step.
  - apply accounted_update. done.
Qed.

End ReactiveRuns.

(** ** Example 4, turn by turn *)

Section Example04Turns.
Import DOM ReactiveState ReactiveSpinBox Observation.
Implicit Types (this : SpinBox) (c : Component) (v : JS.value).






Lemma mousedown_input04 this :
  Example04.consistent this ->
  Example04.step (MouseDown input) this = Normal this.
Proof.
  intros [Hb _]. unfold Example04.step. simpl.
  destruct (shadowRoot (own this)) as [root|] eqn:Hr.
  - by rewrite (dispatch_wired _ _ _ _ Hb Hr).
  - unfold dispatch. by rewrite Hr.
Qed.

Lemma presses_int04 ts : forall z this,
  Example04.consistent this -> attached this ->
  get_value this = JS.VNum (JS.Int z) ->
  Z.abs z + Z.of_nat (length ts) <= JS.maxExact ->
  exists this',
    run Example04.step (MouseDown <$> ts) this = Some this'
    /\ get_value this' = JS.VNum (JS.Int (z + net ts))
    /\ Example04.consistent this'
    /\ attached this'.
Proof.
  induction ts as [|t ts IH]; intros z this Hc Ha Hv Hz.
  - exists this. simpl. by rewrite Z.add_0_r.
  - pose proof (stepOf_bound t) as Ht. simpl in Hz.
    assert (exists b,
              Example04.step (MouseDown t) this = Normal b
              /\ get_value b = JS.VNum (JS.Int (z + stepOf t))
              /\ Example04.consistent b /\ attached b)
      as (b & Hb & Hvb & Hcb & Hab).
    { destruct (decide (t = input)) as [->|Hne].
      - exists this. rewrite (mousedown_input04 _ Hc). simpl.
        by rewrite Z.add_0_r.
      - exists (set_value (JS.VNum (JS.Int (z + stepOf t))) this).
        split; [|split; [apply get_value_set_value|split]].
        + apply (press04 t (stepOf t) (JS.Int z)); try done.
          * destruct t; try done; [by right|by left].
          * by apply attached_root.
          * by rewrite Hv.
          * simpl. apply toDouble_exact. lia.
        + by apply consistent_set_value04.
        + by apply update_attached. }
    destruct (IH (z + stepOf t) b Hcb Hab Hvb) as (d & Hrun & Hvd & Hcd & Had);
      [lia|].
    exists d. cbn [fmap list_fmap run]. rewrite Hb. simpl.
    split; [done|]. split; [|done].
    rewrite Hvd. simpl. fold (net ts). do 2 f_equal. lia.
Qed.

(** X10. Presses add up in example 4 as well: the presses of one turn on an
    attached element whose value is the integer [z] leave, once the turn has
    ended, the value [z] plus the presses on the increment button minus the
    presses on the decrement button, and the field shows its decimal
    text. *)
Theorem presses_add_up04 es this z ts :
  run Example04.step es Example04.constructor = Some this ->
  Connected ∈ es ->
  get_value this = JS.VNum (JS.Int z) ->
  Z.abs z + Z.of_nat (length ts) <= JS.maxExact ->
  exists this',
    run Example04.step ((MouseDown <$> ts) ++ [EndOfTurn]) this = Some this'
    /\ get_value this' = JS.VNum (JS.Int (z + net ts))
    /\ shownText (own this')
       = Some (JS.numberToString (JS.Int (z + net ts))).
Proof.
  intros Hrun Hin Hv Hz.
  pose proof (consistent_run04 es this Hrun) as Hc.
  assert (attached this) as Ha.
  { apply (connected_attached04 es _ _ consistent_constructor04 Hrun).
    by right. }
  destruct (presses_int04 ts z this Hc Ha Hv Hz) as (b & Hb & Hvb & Hcb & Hab).
  destruct (consistent_endOfTurn b Hcb) as (_ & Hve & Hshown).
  destruct (Hshown Hab) as [_ Htext].
  exists (endOfTurn Example04.SpinBox b). rewrite run_app, Hb.
  split; [done|]. rewrite Hve, Htext, Hvb. split; [done|].
  by rewrite fieldText_number.
Qed.

End Example04Turns.

(** ** Example 4 next to example 3 *)

Section ReactiveRefactoring.
Import DOM ReactiveState Observation.

Lemma alike_set_value v a b :
  alike a b ->
  alike (Example03.set_value v a) (ReactiveSpinBox.set_value v b).
Proof.
  intros (Hv & [Hw _] & Hr & Hc & Ha).
  destruct (consistent_render03
              {| Example03._value := v;
                 Example03.element := Example03.element a |} Hw) as [? ?].
  split; [by rewrite get_value_set_value|]. split; [done|]. split; [done|].
  split; [by apply consistent_set_value04|by apply update_attached].
Qed.

Lemma alike_stepValue k a b :
  alike a b ->
  alikeOutcome (outcome (Example03.stepValue k a))
    (outcome (ReactiveSpinBox.stepValue k b)).
Proof.
  intros Hab. pose proof Hab as (Hv & _).
  unfold Example03.stepValue, ReactiveSpinBox.stepValue, withNumber,
    Example03.get_value.
  rewrite Hv. destruct (JS.ToNumber _); [|done].
  destruct (JS.add _ _); [|done]. by apply alike_set_value.
Qed.

Lemma alike_step e a b :
  e ≠ Disconnected -> alike a b ->
  alikeOutcome (outcome (Example03.step e a)) (outcome (Example04.step e b)).
Proof.
  intros He Hab. pose proof Hab as (Hv & Hca & [ra Hra] & Hcb & Hb).
  pose proof Hca as [Hwa _]. pose proof Hcb as [Hbb _].
  destruct (attached_root b Hcb Hb) as [rb Hrb].
  destruct e; unfold Example04.step; simpl; try done.
  - destruct (consistent_render03 a Hwa) as [? ?].
    destruct (consistent_attach b Hcb) as [? ?].
    split; [|done].
    unfold ReactiveSpinBox.get_value. by rewrite attach_current.
  - destruct (bool_decide _); [|done].
    unfold Example03.attributeChangedCallback,
      ReactiveSpinBox.attributeChangedCallback, withNumber.
    destruct (bool_decide _); [|done]. destruct (JS.parseInt _); [|done].
    by apply alike_set_value.
  - by apply alike_set_value.
  - rewrite Hra, Hrb. unfold Example03.dispatch, ReactiveSpinBox.dispatch.
    simpl.
    rewrite (listenersFor_wired _ _ (typeText text ra))
      by apply (wiredOnce_listeners _ _ Hwa Hra).
    rewrite (listenersFor_wired _ _ (typeText text rb))
      by (destruct Hbb as (_ & Hw & _); apply (wiredOnce_listeners _ _ Hw Hrb)).
    rewrite !runListeners_one. simpl.
    split; [by rewrite get_value_set_value|].
    split; [|split; [|split]].
    + apply consistent_render03. unfold wiredOnce in *. simpl.
      by rewrite Hra in Hwa.
    + apply consistent_render03. unfold wiredOnce in *. simpl.
      by rewrite Hra in Hwa.
    + by apply consistent_typed.
    + by apply update_attached.
  - rewrite (dispatch_wired _ _ _ _ Hbb Hrb).
    unfold Example03.dispatch. rewrite Hra.
    rewrite (listenersFor_wired _ _ _ (wiredOnce_listeners _ _ Hwa Hra)).
    destruct t; rewrite ?runListeners_one; simpl; try done;
      by apply alike_stepValue.
  - destruct (consistent_endOfTurn b Hcb) as (? & Hve & _).
    split; [by rewrite Hve|]. split; [done|]. split; [eauto|].
    split; [done|]. by apply attached_endOfTurn.
Qed.

Lemma alike_run es : forall a b,
  Disconnected ∉ es -> alike a b ->
  alikeOutcome (run Example03.step es a) (run Example04.step es b).
Proof.
  induction es as [|e es IH]; intros a b Hes Hab; [done|].
  apply not_elem_of_cons in Hes as [He Hes]. simpl.
  pose proof (alike_step e a b (not_eq_sym He) Hab) as Hstep.
  destruct (outcome (Example03.step e a)) as [a'|],
    (outcome (Example04.step e b)) as [b'|]; try done.
  by apply IH.
Qed.

(** X11. Example 4 shows what example 3 shows, one turn later at most: after a
    [connectedCallback] on a new element, the same events leave the two
    with the same value, and once the turn has ended the field of example 4
    shows the text the field of example 3 shows (the runs that disconnect
    the reactive element left aside). *)
Theorem reactive_shows_what_mixin_shows es :
  Disconnected ∉ es ->
  (shown03 <$> run Example03.step (Connected :: es) Example03.constructor)
  = (shown04 <$>
       run Example04.step (Connected :: es ++ [EndOfTurn])
         Example04.constructor).
Proof.
  intros Hes.
  change (run Example03.step (Connected :: es) Example03.constructor)
    with (run Example03.step es (Example03.render Example03.constructor)).
  change (run Example04.step (Connected :: es ++ [EndOfTurn])
            Example04.constructor)
    with (run Example04.step (es ++ [EndOfTurn])
            (attach Example04.SpinBox Example04.constructor)).
  rewrite run_app.
  assert (alike (Example03.render Example03.constructor)
            (attach Example04.SpinBox Example04.constructor)) as Hstart.
  { destruct (consistent_render03 Example03.constructor) as [? ?]; [done|].
    destruct (consistent_attach Example04.constructor
                consistent_constructor04) as [? ?].
    split; [by vm_compute|]. done. }
  pose proof (alike_run es _ _ Hes Hstart) as Hrun.
  destruct (run Example03.step es _) as [a|],
    (run Example04.step es _) as [b|]; try done.
  destruct Hrun as (Hv & Hca & Hra & Hcb & Hb). simpl.
  destruct (consistent_endOfTurn b Hcb) as (_ & Hve & Hshown).
  destruct (Hshown Hb) as [_ Htext].
  unfold shown03, shown04. rewrite Hve, Htext, <- Hv.
  destruct Hra as [ra Hra]. destruct Hca as [_ Hs].
  unfold shownText, Example03.get_value. rewrite Hra. simpl.
  by rewrite (Hs ra Hra).
Qed.

End ReactiveRefactoring.

(** ** The themed spin box, over whole runs *)

Section ThemedRuns.
Import DOM ReactiveState ReactiveSpinBox Observation.
Implicit Types (this : SpinBox) (v : JS.value).

Lemma themeKept_update_value v this :
  themeKept this -> themeKept (set_value v this).
Proof.
  intros [Hidle Hth].
  destruct (decide (current this !! "value" = Some v)) as [Hv|Hv].
  - by rewrite (set_value_same _ _ Hv).
  - split; [|left; by apply set_value_marks].
    unfold set_value. rewrite update_stage.
    rewrite decide_False by by rewrite merge_value_same.
    by destruct (stage this).
Qed.

Lemma themed_renderPass first this :
  "value" ∈ changed this \/ themed this ->
  themeKept (renderPass Example12.CustomSpinBox first this).
Proof.
  intros Hth. split; [done|]. right.
  unfold themed, renderPass, get_value. simpl.
  unfold Example12.render, Example12.SpinBox_render.
  destruct (decide ("value" ∈ changed this)) as [Hin|Hin].
  - by rewrite bool_decide_eq_true_2.
  - rewrite bool_decide_eq_false_2 by done.
    destruct Hth as [?|[Hb Hg]]; [done|].
    destruct (render04_style (changed this) (current this) first (own this))
      as [-> ->].
    done.
Qed.

Lemma themeKept_invoke f this this' :
  themeKept this -> outcome (invoke f this) = Some this' -> themeKept this'.
Proof.
  intros Hk. destruct f; simpl.
  - destruct (shadowRoot (own this)); intros [= <-];
      [by apply themeKept_update_value|done].
  - unfold stepValue, withNumber.
    destruct (JS.ToNumber _); [|done]. destruct (JS.add _ _); [|done].
    intros [= <-]. by apply themeKept_update_value.
  - unfold stepValue, withNumber.
    destruct (JS.ToNumber _); [|done]. destruct (JS.add _ _); [|done].
    intros [= <-]. by apply themeKept_update_value.
Qed.

Lemma themeKept_dispatch t ty this this' :
  themeKept this -> outcome (dispatch t ty this) = Some this' ->
  themeKept this'.
Proof.
  unfold dispatch. destruct (shadowRoot (own this)).
  - apply runListeners_preserves. apply themeKept_invoke.
  - by intros ? [= <-].
Qed.

Lemma themeKept_step e this this' :
  themeKept this -> outcome (Example12.step e this) = Some this' ->
  themeKept this'.
Proof.
  intros Hk. pose proof Hk as [Hidle Hth].
  destruct e; unfold Example12.step; simpl.
  - intros [= <-]. unfold attach. destruct (stage this); try done.
    by apply themed_renderPass.
  - done.
  - destruct (bool_decide _); [|by intros [= <-]].
    unfold attributeChangedCallback, withNumber.
    destruct (bool_decide _); [|by intros [= <-]].
    destruct (JS.parseInt _); [|done].
    intros [= <-]. by apply themeKept_update_value.
  - intros [= <-]. by apply themeKept_update_value.
  - destruct (shadowRoot (own this)); [|by intros [= <-]].
    by apply themeKept_dispatch.
  - by apply themeKept_dispatch.
  - intros [= <-]. unfold endOfTurn. destruct (stage this); try done.
    by apply themed_renderPass.
Qed.

(** X12. The colors follow the sign of the value: in every run of the themed
    spin box, whenever no render pass is pending, the border and the
    background of the host are the highlight colors if [parseInt] of the
    value is negative and the empty default if it is not. *)
Theorem idle_colors_fit_value12 es this :
  run Example12.step es Example12.constructor = Some this ->
  stage this = Idle ->
  borderColor (own this) = themeBorder (get_value this)
  /\ backgroundColor (own this) = themeBackground (get_value this).
Proof.
  intros Hrun Hidle.
  assert (themeKept this) as [Hnone Hth].
  { apply (run_preserves themeKept Example12.step themeKept_step es
             Example12.constructor); [|done].
    split; [done|]. left. by vm_compute. }
  destruct Hth as [Hin|Hth]; [|done].
  rewrite (Hnone Hidle) in Hin. by apply not_elem_of_empty in Hin.
Qed.

End ThemedRuns.

(** ** The hypotheses of the theorems about runs are met *)

Section RunWitnesses.
Import DOM ReactiveState Observation.


Lemma throws_only_before_connect01_witness :
  (Connected ∉ [AttributeSet "title" (Some "a"); MouseDown upButton])
  /\ ((exists v, PropertySet (JS.VNum (JS.Int 5)) = PropertySet v)
      \/ (exists newValue,
            PropertySet (JS.VNum (JS.Int 5)) = AttributeSet "value" newValue)).
Proof.
  apply (throws_only_before_connect01
           [AttributeSet "title" (Some "a"); MouseDown upButton]
           Example01.constructor (PropertySet (JS.VNum (JS.Int 5))));
    reflexivity.
Defined.

Lemma reconnect_changes_nothing01_witness :
  let es := [Connected; PropertySet (JS.VNum (JS.Int 7)); Disconnected] in
  let this := default Example01.constructor
                (run Example01.step es Example01.constructor) in
  Example01.step Connected this
  = Normal {| Example01._value := JS.VNum (JS.Int 7);
              Example01.element := countWrite (Example01.element this) |}.
Proof.
  intros es this.
  apply (reconnect_changes_nothing01 es this eq_refl). by left.
Defined.

Lemma presses_add_up01_witness :
  let this := default Example01.constructor
                (run Example01.step [Connected] Example01.constructor) in
  exists this',
    run Example01.step
      (MouseDown <$> [upButton; upButton; downButton; upButton]) this
    = Some this'
    /\ Example01.get_value this' = JS.VNum (JS.Int 2)
    /\ shownText (Example01.element this') = Some "2".
Proof.
  intros this.
  apply (presses_add_up01 [Connected] this 0
           [upButton; upButton; downButton; upButton] eq_refl);
    [by left|reflexivity|by vm_compute].
Defined.

Lemma edit_then_press01_witness :
  let this := default Example01.constructor
                (run Example01.step [Connected] Example01.constructor) in
  exists this',
    run Example01.step [UserEdit "41"; MouseDown upButton] this = Some this'
    /\ Example01.get_value this' = JS.VNum (JS.Int 42)
    /\ shownText (Example01.element this') = Some "42".
Proof.
  intros this.
  apply (edit_then_press01 [Connected] this "41" upButton (JS.Int 41)
           (JS.Int 42) eq_refl); [by left|done|reflexivity|reflexivity].
Defined.


Lemma field_written_by_marking_passes_witness :
  let es := [PropertySet (JS.VNum (JS.Int 7)); Connected;
             PropertySet (JS.VNum (JS.Int 8)); PropertySet (JS.VNum (JS.Int 9));
             EndOfTurn; PropertySet (JS.VNum (JS.Int 9)); EndOfTurn] in
  let this := default Example12.constructor
                (run Example12.step es Example12.constructor) in
  writes (own this) = 2%nat /\ 2%nat = length (marking (passes this)).
Proof.
  intros es this. split; [by vm_compute|].
  transitivity (writes (own this)); [by vm_compute|].
  apply (field_written_by_marking_passes Example12.CustomSpinBox es this);
    [by right|by vm_compute].
Defined.


Lemma presses_add_up04_witness :
  let this := default Example04.constructor
                (run Example04.step [Connected] Example04.constructor) in
  exists this',
    run Example04.step
      ((MouseDown <$> [downButton; downButton; upButton]) ++ [EndOfTurn]) this
    = Some this'
    /\ ReactiveSpinBox.get_value this' = JS.VNum (JS.Int (-1))
    /\ shownText (own this') = Some "-1".
Proof.
  intros this.
  apply (presses_add_up04 [Connected] this 0
           [downButton; downButton; upButton]);
    [by vm_compute|by left|by vm_compute|by vm_compute].
Defined.

Lemma reactive_shows_what_mixin_shows_witness :
  let es := [AttributeSet "value" (Some "5"); MouseDown upButton;
             UserEdit "20"; MouseDown downButton] in
  (shown03 <$> run Example03.step (Connected :: es) Example03.constructor)
  = (shown04 <$>
       run Example04.step (Connected :: es ++ [EndOfTurn])
         Example04.constructor).
Proof.
  intros es. apply (reactive_shows_what_mixin_shows es).
  apply (bool_decide_eq_false_1 (Disconnected ∈ es)). reflexivity.
Defined.

Lemma idle_colors_fit_value12_witness :
  let es := [Connected; PropertySet (JS.VNum (JS.Int (-3))); EndOfTurn] in
  let this := default Example12.constructor
                (run Example12.step es Example12.constructor) in
  borderColor (own this) = "rgb(255, 0, 255)"
  /\ backgroundColor (own this) = "rgba(255, 0, 255, 0.1)".
Proof.
  intros es this.
  apply (idle_colors_fit_value12 es this); by vm_compute.
Defined.

End RunWitnesses.
